(** * A to-do list manager: task store, task service and their platform

    Shallow embedding of the TypeScript sources

    - [types/index.ts] (the [Task] record and the two string enumerations),
    - [patterns/strategy/PriorityStrategies.ts],
    - [patterns/state/TaskStateHandlers.ts],
    - [patterns/factory/TaskFactory.ts],
    - [patterns/observer/TaskSubject.ts],
    - [adapters/StorageAdapter.ts], [adapters/LocalStorageAdapter.ts],
    - [services/TaskService.ts],
    - [components/TaskForm.tsx]: the submit handler of the form, and of the
      list component the effect that registers its listener and the
      filtered and sorted list,

    together with the part of the JavaScript platform they call: [Date]
    (time values, [toISOString], [Date.parse]), [JSON.stringify] and
    [JSON.parse], [String.prototype.trim] and [Array.prototype.sort].

    Conventions.
    - A JavaScript string is a [string]: a sequence of code units, here the
      8-bit ones.
    - A TypeScript string [enum] is the set of its member strings; a value
      of the enum type that was cast from another string is just that
      string, as at run time.
    - Objects that are only compared by identity (observers) are natural
      numbers.
    - A method that mutates its receiver or reads the environment is a
      computation in the state monad [M] over [World]; a method that
      mutates an argument in place returns the mutated argument.
    - Calls that cross the boundary of the service (a listener's [update],
      the storage port's [getItem]/[setItem]) are recorded in a call log,
      the way a spy records them; listeners return normally and do not
      call back into the service. *)

From Stdlib Require Import ZArith Lia Ascii String List Sorted.
From stdpp Require Import base option numbers list strings gmap.

Open Scope Z_scope.

(* ===================================================================== *)
(** * Decimal fields of fixed width *)
(* ===================================================================== *)

Module Digits.

Definition digit (n : Z) : ascii := ascii_of_nat (48 + Z.to_nat n).

(** The value of a decimal digit character, if it is one. *)
Definition value (c : ascii) : option Z :=
  let n := Z.of_nat (nat_of_ascii c) in
  if (48 <=? n) && (n <=? 57) then Some (n - 48) else None.

(** [pad w n]: the [w] low decimal digits of [n], most significant
    first, zero padded. *)
Fixpoint pad (w : nat) (n : Z) : string :=
  match w with
  | O => EmptyString
  | S w' => pad w' (n / 10) +:+ String (digit (n mod 10)) EmptyString
  end.

(** [read w acc s]: consume exactly [w] decimal digits from the front of
    [s], accumulating their value onto [acc]. *)
Fixpoint read (w : nat) (acc : Z) (s : string) : option (Z * string) :=
  match w with
  | O => Some (acc, s)
  | S w' =>
      match s with
      | String c s' =>
          match value c with
          | Some d => read w' (10 * acc + d) s'
          | None => None
          end
      | EmptyString => None
      end
  end.

(** Consume one expected character. *)
Definition expect (c : ascii) (s : string) : option string :=
  match s with
  | String c' s' => if decide (c = c') then Some s' else None
  | EmptyString => None
  end.

End Digits.

(* ===================================================================== *)
(** * Dates: ECMAScript time values *)
(* ===================================================================== *)

(** A [Date] object holds a time value: a whole number of milliseconds
    since the epoch, at most [8.64e15] in magnitude, or NaN for an
    "Invalid Date". *)
Inductive Date : Type :=
  | DateAt (tv : Z)
  | InvalidDate.

Global Instance Date_eq_dec : EqDecision Date.
Proof. solve_decision. Defined.

Module Date.

Definition msPerSecond : Z := 1000.
Definition msPerMinute : Z := 60000.
Definition msPerHour : Z := 3600000.
Definition msPerDay : Z := 86400000.
Definition maxTime : Z := 8640000000000000.

(** [getTime]: [None] stands for NaN. *)
Definition getTime (d : Date) : option Z :=
  match d with DateAt tv => Some tv | InvalidDate => None end.

(** The time values a [Date] can hold. *)
Definition inRange (tv : Z) : Prop := - maxTime <= tv <= maxTime.

Definition valid (d : Date) : Prop :=
  match d with DateAt tv => inRange tv | InvalidDate => False end.

(** [a <= b] on dates is the comparison of their time values; it is
    false as soon as one side is NaN. *)
Definition le (a b : Date) : Prop :=
  match a, b with
  | DateAt x, DateAt y => x <= y
  | _, _ => False
  end.

Definition TimeClip (tv : Z) : Date :=
  if (- maxTime <=? tv) && (tv <=? maxTime) then DateAt tv else InvalidDate.

(** ** Day number and time within day *)

Definition Day (t : Z) : Z := t / msPerDay.
Definition TimeWithinDay (t : Z) : Z := t mod msPerDay.

(** ** Years *)

Definition isLeap (y : Z) : bool :=
  if negb (y mod 4 =? 0) then false
  else if negb (y mod 100 =? 0) then true
  else if negb (y mod 400 =? 0) then false
  else true.

Definition DaysInYear (y : Z) : Z := if isLeap y then 366 else 365.

Definition DayFromYear (y : Z) : Z :=
  365 * (y - 1970) + (y - 1969) / 4 - (y - 1901) / 100 + (y - 1601) / 400.

(** The largest year whose first day is not after day [d]: a first
    guess from the mean length of a year, corrected by one either way. *)
Definition YearFromDay (d : Z) : Z :=
  let y := 1970 + (400 * d) / 146097 in
  if DayFromYear y >? d then y - 1
  else if DayFromYear (y + 1) <=? d then y + 1
  else y.

Definition YearFromTime (t : Z) : Z := YearFromDay (Day t).

Definition InLeapYear (t : Z) : Z :=
  if isLeap (YearFromTime t) then 1 else 0.

Definition DayWithinYear (t : Z) : Z :=
  Day t - DayFromYear (YearFromTime t).

(** ** Months and days of the month *)

(** Month number, 0 for January, of day-within-year [d] in a year with
    leap flag [L]. *)
Definition MonthOfDay (d L : Z) : Z :=
  if d <? 31 then 0
  else if d <? 59 + L then 1
  else if d <? 90 + L then 2
  else if d <? 120 + L then 3
  else if d <? 151 + L then 4
  else if d <? 181 + L then 5
  else if d <? 212 + L then 6
  else if d <? 243 + L then 7
  else if d <? 273 + L then 8
  else if d <? 304 + L then 9
  else if d <? 334 + L then 10
  else 11.

(** The day-within-year on which month [m] starts. *)
Definition MonthStart (m L : Z) : Z :=
  if m =? 0 then 0
  else if m =? 1 then 31
  else if m =? 2 then 59 + L
  else if m =? 3 then 90 + L
  else if m =? 4 then 120 + L
  else if m =? 5 then 151 + L
  else if m =? 6 then 181 + L
  else if m =? 7 then 212 + L
  else if m =? 8 then 243 + L
  else if m =? 9 then 273 + L
  else if m =? 10 then 304 + L
  else 334 + L.

Definition MonthFromTime (t : Z) : Z :=
  MonthOfDay (DayWithinYear t) (InLeapYear t).

Definition DateFromTime (t : Z) : Z :=
  DayWithinYear t - MonthStart (MonthFromTime t) (InLeapYear t) + 1.

(** ** Hours, minutes, seconds, milliseconds *)

Definition HourFromTime (t : Z) : Z := (t / msPerHour) mod 24.
Definition MinFromTime (t : Z) : Z := (t / msPerMinute) mod 60.
Definition SecFromTime (t : Z) : Z := (t / msPerSecond) mod 60.
Definition msFromTime (t : Z) : Z := t mod msPerSecond.

(** ** Composition *)

Definition MakeTime (hour min sec ms : Z) : Z :=
  hour * msPerHour + min * msPerMinute + sec * msPerSecond + ms.

(** [MakeDay year month date] with [month] counted from 0; a month
    outside 0..11 carries into the year. *)
Definition MakeDay (year month date : Z) : Z :=
  let ym := year + month / 12 in
  let mn := month mod 12 in
  DayFromYear ym + MonthStart mn (if isLeap ym then 1 else 0) + date - 1.

Definition MakeDate (day time : Z) : Z := day * msPerDay + time.

(** ** [Date.prototype.toISOString] *)

(** Four digits for the years 0 to 9999, otherwise a sign and six
    digits. *)
Definition formatYear (y : Z) : string :=
  if (0 <=? y) && (y <=? 9999) then Digits.pad 4 y
  else if 0 <=? y then "+" +:+ Digits.pad 6 y
  else "-" +:+ Digits.pad 6 (- y).

Definition formatTime (t : Z) : string :=
  formatYear (YearFromTime t) +:+ "-" +:+
  Digits.pad 2 (MonthFromTime t + 1) +:+ "-" +:+
  Digits.pad 2 (DateFromTime t) +:+ "T" +:+
  Digits.pad 2 (HourFromTime t) +:+ ":" +:+
  Digits.pad 2 (MinFromTime t) +:+ ":" +:+
  Digits.pad 2 (SecFromTime t) +:+ "." +:+
  Digits.pad 3 (msFromTime t) +:+ "Z".

(** [None]: a RangeError is thrown. *)
Definition toISOString (d : Date) : option string :=
  match d with
  | DateAt tv => Some (formatTime tv)
  | InvalidDate => None
  end.

(** ** [Date.parse] *)

(** The year of a date-time string: [YYYY], or a sign and [YYYYYY]; the
    year [-000000] is not allowed. *)
Definition parseYear (s : string) : option (Z * string) :=
  match s with
  | String "+" s' => Digits.read 6 0 s'
  | String "-" s' =>
      '(y, rest) ← Digits.read 6 0 s';
      if y =? 0 then None else Some (- y, rest)
  | _ => Digits.read 4 0 s
  end.

(** The complete UTC form [YYYY-MM-DDTHH:mm:ss.sssZ] of the date-time
    string format, with the ranges the format gives to each field
    ([24:00:00.000] is the end of the day).  This is the form
    [toISOString] writes.  For every other string (shortened forms,
    forms without the [Z], which are read in local time, and the
    formats particular to an engine) the answer here is NaN. *)
Definition parseTime (s : string) : option Z :=
  '(year, s) ← parseYear s;
  s ← Digits.expect "-" s;
  '(month, s) ← Digits.read 2 0 s;
  s ← Digits.expect "-" s;
  '(day, s) ← Digits.read 2 0 s;
  s ← Digits.expect "T" s;
  '(hour, s) ← Digits.read 2 0 s;
  s ← Digits.expect ":" s;
  '(min, s) ← Digits.read 2 0 s;
  s ← Digits.expect ":" s;
  '(sec, s) ← Digits.read 2 0 s;
  s ← Digits.expect "." s;
  '(ms, s) ← Digits.read 3 0 s;
  s ← Digits.expect "Z" s;
  if negb (bool_decide (s = EmptyString)) then None
  else if negb ((1 <=? month) && (month <=? 12)) then None
  else if negb ((1 <=? day) && (day <=? 31)) then None
  else if negb ((hour <=? 23) && (min <=? 59) && (sec <=? 59)
                || (hour =? 24) && (min =? 0) && (sec =? 0) && (ms =? 0))
  then None
  else Some (MakeDate (MakeDay year (month - 1) day)
                      (MakeTime hour min sec ms)).

Definition parse (s : string) : Date :=
  match parseTime s with
  | Some tv => TimeClip tv
  | None => InvalidDate
  end.

End Date.

(* ===================================================================== *)
(** * JSON values, [JSON.stringify] and [JSON.parse] *)
(* ===================================================================== *)

(** The values [JSON.parse] builds.  A number keeps the text of its
    literal; an object keeps its members in source order. *)
#[warnings="-register-all"]
Inductive JSON : Type :=
  | JNull
  | JBool (b : bool)
  | JNumber (lit : string)
  | JString (s : string)
  | JArray (elements : list JSON)
  | JObject (members : list (string * JSON)).

Module JSON.

Definition code (c : ascii) : Z := Z.of_nat (nat_of_ascii c).
Definition unit_ (n : Z) : ascii := ascii_of_nat (Z.to_nat n).

(** The quotation mark and the reverse solidus. *)
Definition dquote : ascii := Eval cbv in unit_ 34.
Definition backslash : ascii := Eval cbv in unit_ 92.

Definition hexDigit (n : Z) : ascii :=
  if n <? 10 then unit_ (48 + n) else unit_ (87 + n).

Definition hexValue (c : ascii) : option Z :=
  let n := code c in
  if (48 <=? n) && (n <=? 57) then Some (n - 48)
  else if (97 <=? n) && (n <=? 102) then Some (n - 87)
  else if (65 <=? n) && (n <=? 70) then Some (n - 55)
  else None.

(** ** Writing *)

(** One code unit inside a quoted string: the two-character escapes,
    [\u00xx] for the other control characters, and the unit itself
    otherwise. *)
Definition escape (c : ascii) : string :=
  let n := code c in
  if n =? 8 then String backslash "b"
  else if n =? 9 then String backslash "t"
  else if n =? 10 then String backslash "n"
  else if n =? 12 then String backslash "f"
  else if n =? 13 then String backslash "r"
  else if n =? 34 then String backslash (String dquote EmptyString)
  else if n =? 92 then String backslash (String backslash EmptyString)
  else if n <? 32 then
    String backslash "u00" +:+
    String (hexDigit (n / 16)) (String (hexDigit (n mod 16)) EmptyString)
  else String c EmptyString.

Fixpoint escapeAll (s : string) : string :=
  match s with
  | EmptyString => EmptyString
  | String c s' => escape c +:+ escapeAll s'
  end.

Definition quote (s : string) : string :=
  String dquote (escapeAll s +:+ String dquote EmptyString).

(** The elements of an array after the opening bracket, and the
    members of an object after the opening brace, given how a value is
    written. *)
Definition printElements (print : JSON → string) : list JSON → string :=
  fix elems (l : list JSON) : string :=
    match l with
    | [] => "]"
    | x :: l' =>
        match l' with
        | [] => print x +:+ "]"
        | _ :: _ => print x +:+ "," +:+ elems l'
        end
    end.

Definition printMembers (print : JSON → string)
  : list (string * JSON) → string :=
  fix membs (l : list (string * JSON)) : string :=
    match l with
    | [] => "}"
    | (k, x) :: l' =>
        match l' with
        | [] => quote k +:+ ":" +:+ print x +:+ "}"
        | _ :: _ => quote k +:+ ":" +:+ print x +:+ "," +:+ membs l'
        end
    end.

(** Serialization without indentation. *)
Fixpoint print (v : JSON) : string :=
  match v with
  | JNull => "null"
  | JBool true => "true"
  | JBool false => "false"
  | JNumber lit => lit
  | JString s => quote s
  | JArray elements => "[" +:+ printElements print elements
  | JObject members => "{" +:+ printMembers print members
  end.

(** What [JSON.stringify] makes of a value of the program: each type
    says which JSON value stands for it. *)
Class ToJSON (A : Type) := toJSON : A → JSON.

Definition stringify {A} `{ToJSON A} (a : A) : string := print (toJSON a).
Global Arguments stringify : simpl never.

(** ** Reading *)

Definition isWs (c : ascii) : bool :=
  let n := code c in (n =? 32) || (n =? 9) || (n =? 10) || (n =? 13).

Fixpoint skipWs (s : string) : string :=
  match s with
  | String c s' => if isWs c then skipWs s' else s
  | EmptyString => EmptyString
  end.

Definition isDigit (c : ascii) : bool :=
  let n := code c in (48 <=? n) && (n <=? 57).

(** The longest prefix of digits, and what follows it. *)
Fixpoint digits (s : string) : string * string :=
  match s with
  | String c s' =>
      if isDigit c then let '(ds, r) := digits s' in (String c ds, r)
      else (EmptyString, s)
  | EmptyString => (EmptyString, EmptyString)
  end.

(** The character a two-character escape stands for. *)
Definition unescape (e : ascii) : option ascii :=
  if decide (e = dquote) then Some dquote
  else if decide (e = backslash) then Some backslash
  else match e with
       | "/"%char => Some "/"%char
       | "b"%char => Some (unit_ 8)
       | "f"%char => Some (unit_ 12)
       | "n"%char => Some (unit_ 10)
       | "r"%char => Some (unit_ 13)
       | "t"%char => Some (unit_ 9)
       | _ => None
       end.

(** The characters of a string literal after its opening quote, up to
    and including the closing quote.  An escape [\uXXXX] above [00ff]
    names a code unit outside the 8-bit alphabet and is not read. *)
Fixpoint parseChars (s : string) : option (string * string) :=
  match s with
  | EmptyString => None
  | String c rest =>
      if decide (c = dquote) then Some (EmptyString, rest)
      else if decide (c = backslash) then
        match rest with
        | String "u" (String h1 (String h2 (String h3 (String h4 rest')))) =>
            a ← hexValue h1; b ← hexValue h2;
            c ← hexValue h3; d ← hexValue h4;
            if negb ((a =? 0) && (b =? 0)) then None
            else '(str, r) ← parseChars rest';
                 Some (String (unit_ (16 * c + d)) str, r)
        | String e rest' =>
            c ← unescape e;
            '(str, r) ← parseChars rest';
            Some (String c str, r)
        | EmptyString => None
        end
      else if code c <? 32 then None
      else '(str, r) ← parseChars rest; Some (String c str, r)
  end.

(** A number literal: an optional minus sign, an integer part without
    leading zero, an optional fraction and an optional exponent. *)
Definition parseNumber (s : string) : option (string * string) :=
  let '(sign, s) :=
    match s with
    | String "-" r => ("-"%string, r)
    | _ => (EmptyString, s)
    end in
  '(int, s) ← match s with
              | String "0" r => Some ("0"%string, r)
              | String c r =>
                  if isDigit c
                  then let '(ds, r') := digits r in Some (String c ds, r')
                  else None
              | EmptyString => None
              end;
  '(frac, s) ← match s with
               | String "." r =>
                   let '(ds, r') := digits r in
                   match ds with
                   | EmptyString => None
                   | _ => Some ("." +:+ ds, r')
                   end
               | _ => Some (EmptyString, s)
               end;
  '(exp, s) ← match s with
              | String e r =>
                  if (code e =? 101) || (code e =? 69) then
                    let '(sg, r) :=
                      match r with
                      | String "+" r' => ("+"%string, r')
                      | String "-" r' => ("-"%string, r')
                      | _ => (EmptyString, r)
                      end in
                    let '(ds, r') := digits r in
                    match ds with
                    | EmptyString => None
                    | _ => Some (String e sg +:+ ds, r')
                    end
                  else Some (EmptyString, s)
              | EmptyString => Some (EmptyString, s)
              end;
  Some (sign +:+ int +:+ frac +:+ exp, s).

(** Consume the word [w] from the front of [s]. *)
Fixpoint expectWord (w s : string) : option string :=
  match w with
  | EmptyString => Some s
  | String c w' =>
      match s with
      | String c' s' => if decide (c = c') then expectWord w' s' else None
      | EmptyString => None
      end
  end.

(** Recursive descent; the first argument bounds the number of nested
    calls. *)
Fixpoint parseValue (n : nat) (s : string) : option (JSON * string) :=
  match n with
  | O => None
  | S n =>
      match s with
      | EmptyString => None
      | String c rest =>
          if decide (c = dquote) then
            '(str, r) ← parseChars rest; Some (JString str, r)
          else match c with
          | "n"%char => r ← expectWord "ull" rest; Some (JNull, r)
          | "t"%char => r ← expectWord "rue" rest; Some (JBool true, r)
          | "f"%char => r ← expectWord "alse" rest; Some (JBool false, r)
          | "["%char =>
              match skipWs rest with
              | String "]" r => Some (JArray [], r)
              | rest' => '(l, r) ← parseElements n rest'; Some (JArray l, r)
              end
          | "{"%char =>
              match skipWs rest with
              | String "}" r => Some (JObject [], r)
              | rest' => '(l, r) ← parseMembers n rest'; Some (JObject l, r)
              end
          | _ => '(lit, r) ← parseNumber s; Some (JNumber lit, r)
          end
      end
  end
with parseElements (n : nat) (s : string) : option (list JSON * string) :=
  match n with
  | O => None
  | S n =>
      '(v, r) ← parseValue n s;
      match skipWs r with
      | String "," r' =>
          '(l, r'') ← parseElements n (skipWs r'); Some (v :: l, r'')
      | String "]" r' => Some ([v], r')
      | _ => None
      end
  end
with parseMembers (n : nat) (s : string)
     : option (list (string * JSON) * string) :=
  match n with
  | O => None
  | S n =>
      match s with
      | EmptyString => None
      | String c rest =>
          if decide (c = dquote) then
            '(k, r) ← parseChars rest;
            match skipWs r with
            | String ":" r' =>
                '(v, r'') ← parseValue n (skipWs r');
                match skipWs r'' with
                | String "," r3 =>
                    '(l, r4) ← parseMembers n (skipWs r3);
                    Some ((k, v) :: l, r4)
                | String "}" r3 => Some ([(k, v)], r3)
                | _ => None
                end
            | _ => None
            end
          else None
      end
  end.

(** [None]: a SyntaxError is thrown. *)
Definition parse (text : string) : option JSON :=
  '(v, r) ← parseValue (2 * String.length text + 2) (skipWs text);
  match skipWs r with
  | EmptyString => Some v
  | _ => None
  end.

(** Property read [o.key] on a parsed object: the last member of that
    name, [None] for [undefined]. *)
Fixpoint get (key : string) (members : list (string * JSON)) : option JSON :=
  match members with
  | [] => None
  | (k, v) :: rest =>
      match get key rest with
      | Some v' => Some v'
      | None => if decide (k = key) then Some v else None
      end
  end.

End JSON.

(* ===================================================================== *)
(** * [types/index.ts] *)
(* ===================================================================== *)

(** [enum TaskState]: a string enumeration. *)
Definition TaskState : Type := string.

Module TaskState.
Definition NEW : TaskState := "NEW".
Definition IN_PROGRESS : TaskState := "IN_PROGRESS".
Definition COMPLETED : TaskState := "COMPLETED".
Definition POSTPONED : TaskState := "POSTPONED".

(** The members of the enumeration. *)
Definition members : list TaskState := [NEW; IN_PROGRESS; COMPLETED; POSTPONED].
End TaskState.

(** [enum TaskPriority]: a string enumeration. *)
Definition TaskPriority : Type := string.

Module TaskPriority.
Definition HIGH : TaskPriority := "HIGH".
Definition MEDIUM : TaskPriority := "MEDIUM".
Definition LOW : TaskPriority := "LOW".

Definition members : list TaskPriority := [HIGH; MEDIUM; LOW].
End TaskPriority.

(** [interface Task]. *)
Record Task : Type := {
  id : string;
  title : string;
  description : string;
  state : TaskState;
  priority : TaskPriority;
  createdAt : Date;
  updatedAt : Date
}.

Global Instance Task_eq_dec : EqDecision Task.
Proof. solve_decision. Defined.

(** [interface PriorityStrategy]. *)
Record PriorityStrategy : Type := {
  getPriorityLevel : Z;
  getColor : string
}.

(** [interface TaskObserver]: an object with an [update] method, known
    by its identity. *)
Definition TaskObserver : Type := nat.

(* ===================================================================== *)
(** * The world the service runs in *)
(* ===================================================================== *)

(** What the environment answers: [now i] is the time value of the
    [i]-th [new Date()] evaluated, [uuidv4 i] the [i]-th identifier the
    [uuid] package hands out. *)
Class Environment : Type := {
  now : nat → Z;
  uuidv4 : nat → string
}.

(** Calls across the boundary of the service. *)
Inductive Call : Type :=
  | Update (observer : TaskObserver) (tasks : list Task)
  | GetItem (key : string)
  | SetItem (key value : string)
  | RemoveItem (key : string).

Global Instance Call_eq_dec : EqDecision Call.
Proof. solve_decision. Defined.

(** The fields of [class TaskSubject]. *)
Record TaskSubject : Type := {
  observers : list TaskObserver;
  tasks : list Task
}.

(** Everything an operation can read or change: the one service of the
    process (its subject; the factory and the adapter have no fields),
    the browser storage, how far the clock and the identifier generator
    have been consulted, and the calls made so far. *)
Record World : Type := {
  taskSubject : TaskSubject;            (* the service's [taskSubject] *)
  localStorage : gmap string string;    (* the browser's [localStorage] *)
  dates : nat;                          (* [new Date()] evaluated so far *)
  uuids : nat;                          (* identifiers handed out so far *)
  calls : list Call                     (* the call log, oldest first *)
}.

(** ** The state monad *)

Definition M (A : Type) : Type := World → A * World.

Global Instance M_ret : MRet M := λ A a w, (a, w).
Global Instance M_bind : MBind M :=
  λ A B f m w, let '(a, w') := m w in f a w'.

Definition gets {A} (f : World → A) : M A := λ w, (f w, w).
Definition modify (f : World → World) : M unit := λ w, (tt, f w).

(** The world after a computation, and its result. *)
Definition exec {A} (m : M A) (w : World) : World := (m w).2.
Definition eval {A} (m : M A) (w : World) : A := (m w).1.

(** [for (const x of l) body(x)]. *)
Fixpoint forOf {A} (l : list A) (body : A → M unit) : M unit :=
  match l with
  | [] => mret tt
  | x :: l' => body x;; forOf l' body
  end.

Definition record (c : Call) : M unit :=
  modify (λ w, {| taskSubject := taskSubject w; localStorage := localStorage w;
                  dates := dates w; uuids := uuids w;
                  calls := calls w ++ [c] |}).

(** [new Date()]. *)
Definition new_Date `{Environment} : M Date :=
  λ w, (DateAt (now (dates w)),
        {| taskSubject := taskSubject w; localStorage := localStorage w;
           dates := S (dates w); uuids := uuids w; calls := calls w |}).

(** [uuidv4()]. *)
Definition new_uuid `{Environment} : M string :=
  λ w, (uuidv4 (uuids w),
        {| taskSubject := taskSubject w; localStorage := localStorage w;
           dates := dates w; uuids := S (uuids w); calls := calls w |}).

(** [observer.update(tasks)]. *)
Definition update (observer : TaskObserver) (ts : list Task) : M unit :=
  record (Update observer ts).

(** How a program either completes or throws.  [Untyped] is a run that
    goes on with a value outside the TypeScript type it is given (the
    source reaches such values through [any]); the embedding does not
    follow it further. *)
Inductive Error : Type := SyntaxError | TypeError.

Inductive Completion (A : Type) : Type :=
  | Normal (a : A)
  | Throw (e : Error)
  | Untyped.
Arguments Normal {A} a.
Arguments Throw {A} e.
Arguments Untyped {A}.

(* ===================================================================== *)
(** * What [JSON.stringify] and [new Date(value)] do with the program's values *)
(* ===================================================================== *)

(** [Date.prototype.toJSON]: the ISO string, [null] for an invalid date. *)
Global Instance Date_toJSON : JSON.ToJSON Date := λ d,
  match Date.toISOString d with
  | Some iso => JString iso
  | None => JNull
  end.

(** A task is written with its properties in the order the factory
    creates them. *)
Global Instance Task_toJSON : JSON.ToJSON Task := λ t,
  JObject [("id", JString (id t));
           ("title", JString (title t));
           ("description", JString (description t));
           ("state", JString (state t));
           ("priority", JString (priority t));
           ("createdAt", JSON.toJSON (createdAt t));
           ("updatedAt", JSON.toJSON (updatedAt t))].

Global Instance list_toJSON {A} `{JSON.ToJSON A} : JSON.ToJSON (list A) :=
  λ l, JArray (map JSON.toJSON l).

(** [new Date(value)] for a property read off a parsed object: a string
    is parsed, [null] converts to the number 0, [undefined] to NaN.  The
    other kinds of value are not [Task] timestamps as the service writes
    them and give [None]. *)
Definition Date_of (value : option JSON) : option Date :=
  match value with
  | None => Some InvalidDate
  | Some JNull => Some (DateAt 0)
  | Some (JString s) => Some (Date.parse s)
  | Some _ => None
  end.

Definition string_of (value : option JSON) : option string :=
  match value with
  | Some (JString s) => Some s
  | _ => None
  end.

(* ===================================================================== *)
(** * [patterns/strategy/PriorityStrategies.ts] *)
(* ===================================================================== *)

Definition HighPriorityStrategy : PriorityStrategy :=
  {| getPriorityLevel := 3; getColor := "#ff4d4d" |}.

Definition MediumPriorityStrategy : PriorityStrategy :=
  {| getPriorityLevel := 2; getColor := "#ffa64d" |}.

Definition LowPriorityStrategy : PriorityStrategy :=
  {| getPriorityLevel := 1; getColor := "#4dff4d" |}.

Module PriorityStrategyFactory.

Definition getStrategy (priority : TaskPriority) : PriorityStrategy :=
  if decide (priority = TaskPriority.HIGH) then HighPriorityStrategy
  else if decide (priority = TaskPriority.MEDIUM) then MediumPriorityStrategy
  else if decide (priority = TaskPriority.LOW) then LowPriorityStrategy
  else MediumPriorityStrategy.

End PriorityStrategyFactory.

(* ===================================================================== *)
(** * [patterns/state/TaskStateHandlers.ts] *)
(* ===================================================================== *)

(** [interface TaskStateHandler].  [handleState] assigns to two fields of
    its argument; it returns the task as it is after the assignments. *)
Record TaskStateHandler : Type := {
  handleState : Task → M Task;
  getNextState : option TaskState;
  getPreviousState : option TaskState
}.

Section StateHandlers.
Context `{Environment}.

(** [task.state = s; task.updatedAt = new Date()]. *)
Definition assignState (s : TaskState) (task : Task) : M Task :=
  let task := {| id := id task; title := title task;
                 description := description task; state := s;
                 priority := priority task; createdAt := createdAt task;
                 updatedAt := updatedAt task |} in
  d ← new_Date;
  mret {| id := id task; title := title task;
          description := description task; state := state task;
          priority := priority task; createdAt := createdAt task;
          updatedAt := d |}.

Definition NewStateHandler : TaskStateHandler :=
  {| handleState := assignState TaskState.NEW;
     getNextState := Some TaskState.IN_PROGRESS;
     getPreviousState := None |}.

Definition InProgressStateHandler : TaskStateHandler :=
  {| handleState := assignState TaskState.IN_PROGRESS;
     getNextState := Some TaskState.COMPLETED;
     getPreviousState := Some TaskState.NEW |}.

Definition CompletedStateHandler : TaskStateHandler :=
  {| handleState := assignState TaskState.COMPLETED;
     getNextState := None;
     getPreviousState := Some TaskState.IN_PROGRESS |}.

Definition PostponedStateHandler : TaskStateHandler :=
  {| handleState := assignState TaskState.POSTPONED;
     getNextState := Some TaskState.IN_PROGRESS;
     getPreviousState := Some TaskState.NEW |}.

End StateHandlers.

(* ===================================================================== *)
(** * [patterns/factory/TaskFactory.ts] *)
(* ===================================================================== *)

Module ConcreteTaskFactory.
Section WithEnvironment.
Context `{Environment}.

Definition createTask (title description : string) (priority : TaskPriority)
  : M Task :=
  now ← new_Date;
  uuid ← new_uuid;
  mret {| id := uuid;
          title := title;
          description := description;
          state := TaskState.NEW;
          priority := priority;
          createdAt := now;
          updatedAt := now |}.

End WithEnvironment.
End ConcreteTaskFactory.

(* ===================================================================== *)
(** * [patterns/observer/TaskSubject.ts] *)
(* ===================================================================== *)

(** [Array.prototype.indexOf]: the first index holding [x], [-1] if there
    is none. *)
Fixpoint indexOf {A} `{EqDecision A} (x : A) (l : list A) : Z :=
  match l with
  | [] => -1
  | y :: l' =>
      if decide (y = x) then 0
      else let i := indexOf x l' in if i =? -1 then -1 else i + 1
  end.

(** [l.splice(start, 1)] for [0 <= start]: the array without the element
    at [start]. *)
Definition splice1 {A} (start : Z) (l : list A) : list A :=
  take (Z.to_nat start) l ++ drop (S (Z.to_nat start)) l.

Module TaskSubject.

Definition set_observers (os : list TaskObserver) : M unit :=
  modify (λ w, {| taskSubject := {| observers := os;
                                    tasks := tasks (taskSubject w) |};
                  localStorage := localStorage w;
                  dates := dates w; uuids := uuids w; calls := calls w |}).

Definition set_tasks (ts : list Task) : M unit :=
  modify (λ w, {| taskSubject := {| observers := observers (taskSubject w);
                                    tasks := ts |};
                  localStorage := localStorage w;
                  dates := dates w; uuids := uuids w; calls := calls w |}).

Definition attach (observer : TaskObserver) : M unit :=
  os ← gets (λ w, observers (taskSubject w));
  set_observers (os ++ [observer]).

Definition detach (observer : TaskObserver) : M unit :=
  os ← gets (λ w, observers (taskSubject w));
  let index := indexOf observer os in
  if negb (index =? -1) then set_observers (splice1 index os)
  else mret tt.

Definition notify : M unit :=
  os ← gets (λ w, observers (taskSubject w));
  forOf os (λ observer,
    ts ← gets (λ w, tasks (taskSubject w));
    update observer ts).

Definition setTasks (ts : list Task) : M unit :=
  set_tasks ts;;
  notify.

Definition getTasks : M (list Task) :=
  gets (λ w, tasks (taskSubject w)).

End TaskSubject.

(* ===================================================================== *)
(** * [adapters/StorageAdapter.ts], [adapters/LocalStorageAdapter.ts] *)
(* ===================================================================== *)

(** [interface StorageAdapter]. *)
Record StorageAdapter : Type := {
  getItem : string → M (option string);
  setItem : string → string → M unit;
  removeItem : string → M unit
}.

Definition set_localStorage (f : gmap string string → gmap string string)
  : M unit :=
  modify (λ w, {| taskSubject := taskSubject w;
                  localStorage := f (localStorage w);
                  dates := dates w; uuids := uuids w; calls := calls w |}).

(** Each method hands its arguments to [localStorage]. *)
Definition LocalStorageAdapter : StorageAdapter :=
  {| getItem := λ key,
       record (GetItem key);;
       gets (λ w, localStorage w !! key);
     setItem := λ key value,
       record (SetItem key value);;
       set_localStorage (λ m, <[key := value]> m);
     removeItem := λ key,
       record (RemoveItem key);;
       set_localStorage (λ m, delete key m) |}.

(* ===================================================================== *)
(** * [services/TaskService.ts] *)
(* ===================================================================== *)

(** [l.map(f)] for a callback with effects: [f] runs on the elements in
    order. *)
Fixpoint mapM {A B} (f : A → M B) (l : list A) : M (list B) :=
  match l with
  | [] => mret []
  | x :: l' => y ← f x; ys ← mapM f l'; mret (y :: ys)
  end.

Module TaskService.
Section WithEnvironment.
Context `{Environment}.

Definition STORAGE_KEY : string := "tasks".

(** The adapter the service is constructed with by default. *)
Definition storageAdapter : StorageAdapter := LocalStorageAdapter.

(** The callback of [loadTasks]:
    [{...task, createdAt: new Date(task.createdAt),
               updatedAt: new Date(task.updatedAt)}].
    Reading a property of [null] throws; an element that does not carry
    the five string properties of a task gives an object that is not a
    [Task]. *)
Definition rehydrate (task : JSON) : Completion Task :=
  match task with
  | JNull => Throw TypeError
  | JObject members =>
      match string_of (JSON.get "id" members),
            string_of (JSON.get "title" members),
            string_of (JSON.get "description" members),
            string_of (JSON.get "state" members),
            string_of (JSON.get "priority" members),
            Date_of (JSON.get "createdAt" members),
            Date_of (JSON.get "updatedAt" members) with
      | Some i, Some t, Some d, Some s, Some p, Some c, Some u =>
          Normal {| id := i; title := t; description := d; state := s;
                    priority := p; createdAt := c; updatedAt := u |}
      | _, _, _, _, _, _, _ => Untyped
      end
  | _ => Untyped
  end.

(** [elements.map(rehydrate)]: the first element that throws ends the
    run. *)
Fixpoint rehydrateAll (elements : list JSON) : Completion (list Task) :=
  match elements with
  | [] => Normal []
  | task :: rest =>
      match rehydrate task, rehydrateAll rest with
      | Throw e, _ => Throw e
      | _, Throw e => Throw e
      | Normal t, Normal ts => Normal (t :: ts)
      | _, _ => Untyped
      end
  end.

(** [loadTasks]: an absent or empty item is falsy and skipped; text that
    is not JSON makes [JSON.parse] throw; a value without a [map] method
    makes the call of [map] throw. *)
Definition loadTasks : M (Completion unit) :=
  storedTasks ← getItem storageAdapter STORAGE_KEY;
  match storedTasks with
  | None | Some EmptyString => mret (Normal tt)
  | Some text =>
      match JSON.parse text with
      | None => mret (Throw SyntaxError)
      | Some (JArray elements) =>
          match rehydrateAll elements with
          | Normal ts => TaskSubject.setTasks ts;; mret (Normal tt)
          | Throw e => mret (Throw e)
          | Untyped => mret Untyped
          end
      | Some _ => mret (Throw TypeError)
      end
  end.

(** The private constructor, after the adapter is chosen:
    [this.taskSubject = new TaskSubject(); this.loadTasks()]. *)
Definition constructor : M (Completion unit) :=
  modify (λ w, {| taskSubject := {| observers := []; tasks := [] |};
                  localStorage := localStorage w;
                  dates := dates w; uuids := uuids w; calls := calls w |});;
  loadTasks.

Definition saveTasks : M unit :=
  ts ← TaskSubject.getTasks;
  setItem storageAdapter STORAGE_KEY (JSON.stringify ts).

Definition createTask (title description : string) (priority : TaskPriority)
  : M Task :=
  task ← ConcreteTaskFactory.createTask title description priority;
  ts ← TaskSubject.getTasks;
  let tasks := ts ++ [task] in
  TaskSubject.setTasks tasks;;
  saveTasks;;
  mret task.

(** The callback of [updateTask]:
    [t.id === task.id ? { ...task, updatedAt: new Date() } : t]. *)
Definition replaceBy (task t : Task) : M Task :=
  if decide (id t = id task) then
    d ← new_Date;
    mret {| id := id task; title := title task;
            description := description task; state := state task;
            priority := priority task; createdAt := createdAt task;
            updatedAt := d |}
  else mret t.

Definition updateTask (task : Task) : M unit :=
  ts ← TaskSubject.getTasks;
  tasks ← mapM (replaceBy task) ts;
  TaskSubject.setTasks tasks;;
  saveTasks.

Definition deleteTask (taskId : string) : M unit :=
  ts ← TaskSubject.getTasks;
  let tasks := filter (λ t, id t ≠ taskId) ts in
  TaskSubject.setTasks tasks;;
  saveTasks.

Definition _getHandlerForState (state : TaskState) : option TaskStateHandler :=
  if decide (state = TaskState.NEW) then Some NewStateHandler
  else if decide (state = TaskState.IN_PROGRESS) then Some InProgressStateHandler
  else if decide (state = TaskState.COMPLETED) then Some CompletedStateHandler
  else if decide (state = TaskState.POSTPONED) then Some PostponedStateHandler
  else None.

Definition getPossibleNextState (task : Task) : M (option TaskState) :=
  let handler := _getHandlerForState (state task) in
  mret (match handler with
        | Some handler => getNextState handler
        | None => None
        end).

Definition getPossiblePreviousState (task : Task) : M (option TaskState) :=
  let handler := _getHandlerForState (state task) in
  mret (match handler with
        | Some handler => getPreviousState handler
        | None => None
        end).

(** [changeTaskState] assigns to its argument through the handler; the
    result is the argument as the caller finds it after the call.  When
    the argument is one of the stored objects, the assignment shows in
    the stored collection too, until [updateTask] puts a copy in the
    place of that object (it carries the argument's [id]): the collection
    that is set, announced and saved is the same either way. *)
Definition changeTaskState (task : Task) (newState : TaskState) : M Task :=
  let handler := _getHandlerForState newState in
  match handler with
  | Some handler =>
      task ← handleState handler task;
      updateTask task;;
      mret task
  | None => mret task
  end.

Definition getTasks : M (list Task) := TaskSubject.getTasks.

Definition attachObserver (observer : TaskObserver) : M unit :=
  TaskSubject.attach observer.

Definition detachObserver (observer : TaskObserver) : M unit :=
  TaskSubject.detach observer.

End WithEnvironment.
End TaskService.

(* ===================================================================== *)
(** * [services/TaskService.ts]: the one instance *)
(* ===================================================================== *)

(** The process: whether the static field [TaskService.instance] is set,
    and the world, which holds the fields of that instance. *)
Record Process : Type := {
  instance : bool;
  world : World
}.

(** [TaskService.getInstance()], called without an adapter, as [App]
    calls it: the constructor runs when no instance is set; the field is
    assigned when the constructor returns, and stays unset when it
    throws. *)
Definition getInstance (p : Process) : Completion unit * Process :=
  if negb (instance p) then
    match TaskService.constructor (world p) with
    | (Throw e, w) => (Throw e, {| instance := false; world := w |})
    | (c, w) => (c, {| instance := true; world := w |})
    end
  else (Normal tt, p).

(* ===================================================================== *)
(** * [components/TaskForm.tsx] *)
(* ===================================================================== *)

Module TaskForm.

(** The three pieces of state of the form. *)
Record State : Type := {
  title : string;
  description : string;
  priority : TaskPriority
}.

(** White space and line terminators, as [String.prototype.trim] knows
    them, among the 8-bit code units: tab, line feed, vertical tab, form
    feed, carriage return, space, no-break space. *)
Definition isWhiteSpace (c : ascii) : bool :=
  let n := JSON.code c in
  (n =? 9) || (n =? 10) || (n =? 11) || (n =? 12) || (n =? 13)
  || (n =? 32) || (n =? 160).

Fixpoint trimStart (s : string) : string :=
  match s with
  | String c s' => if isWhiteSpace c then trimStart s' else s
  | EmptyString => EmptyString
  end.

Fixpoint trimEnd (s : string) : string :=
  match s with
  | String c s' =>
      match trimEnd s' with
      | EmptyString => if isWhiteSpace c then EmptyString else String c EmptyString
      | rest => String c rest
      end
  | EmptyString => EmptyString
  end.

(** [s.trim()]. *)
Definition trim (s : string) : string := trimEnd (trimStart s).

Section WithEnvironment.
Context `{Environment}.

(** [handleSubmit], after [e.preventDefault()]: a title that trims to the
    empty string is falsy and nothing is done; otherwise the task is
    created from the fields as they are and the three setters put the
    form back to its initial state.  The result is the state of the form
    at the next rendering. *)
Definition handleSubmit (form : State) : M State :=
  match trim (title form) with
  | EmptyString => mret form
  | _ =>
      TaskService.createTask (title form) (description form) (priority form);;
      mret {| title := EmptyString;
              description := EmptyString;
              priority := TaskPriority.MEDIUM |}
  end.

End WithEnvironment.
End TaskForm.

(* ===================================================================== *)
(** * [components/TaskList.tsx] *)
(* ===================================================================== *)

(** [Array.prototype.sort] with a comparator: what the comparator
    returns is turned into a number (NaN counts as 0), and the elements
    are arranged so that no element follows one it has to precede, equal
    elements staying in their order.  When the comparator is consistent
    this is the order every engine gives; it is computed here by
    insertion. *)
Definition SortCompare {A} (comparator : A → A → option Z) (x y : A) : Z :=
  match comparator x y with
  | Some v => v
  | None => 0
  end.

Fixpoint sortInsert {A} (comparator : A → A → option Z) (x : A) (l : list A)
  : list A :=
  match l with
  | [] => [x]
  | y :: l' =>
      if 0 <? SortCompare comparator x y
      then y :: sortInsert comparator x l'
      else x :: l
  end.

Fixpoint sort {A} (comparator : A → A → option Z) (l : list A) : list A :=
  match l with
  | [] => []
  | x :: l' => sortInsert comparator x (sort comparator l')
  end.

Module TaskList.

(** [getPriorityColor]. *)
Definition getPriorityColor (priority : TaskPriority) : string :=
  getColor (PriorityStrategyFactory.getStrategy priority).

(** The comparator of [filteredAndSortedTasks]; [new Date(d)] of a date
    is a date with the same time value, and a difference with NaN is
    NaN.  The differences are taken exactly; as numbers they are rounded,
    which keeps their sign. *)
Definition comparator (sortBy : string) (a b : Task) : option Z :=
  if decide (sortBy = "priority"%string) then
    let priorityA :=
      getPriorityLevel (PriorityStrategyFactory.getStrategy (priority a)) in
    let priorityB :=
      getPriorityLevel (PriorityStrategyFactory.getStrategy (priority b)) in
    Some (priorityB - priorityA)
  else
    match Date.getTime (createdAt b), Date.getTime (createdAt a) with
    | Some tb, Some ta => Some (tb - ta)
    | _, _ => None
    end.

(** [filteredAndSortedTasks] for the collection [tasks] the component
    holds, the chosen [filter] (a state, or ["ALL"]) and the chosen
    [sortBy]. *)
Definition filteredAndSortedTasks
    (tasks : list Task) (filter_ sortBy : string) : list Task :=
  sort (comparator sortBy)
       (filter (λ task, filter_ = "ALL"%string ∨ state task = filter_) tasks).

(** The effect of [useEffect]: a listener is made for this run of the
    effect (its [update] hands the collection it is given to [setTasks]),
    it is attached, and the collection of the service is handed to
    [setTasks]; the result is that collection.  The cleanup detaches the
    same listener. *)
Definition effect (observer : TaskObserver) : M (list Task) :=
  TaskService.attachObserver observer;;
  TaskService.getTasks.

Definition cleanup (observer : TaskObserver) : M unit :=
  TaskService.detachObserver observer.

End TaskList.

(* ===================================================================== *)
(** * Vocabulary of the statements *)
(* ===================================================================== *)

(** One pass of [notify]: one [update] call per registration, in
    registration order, each with the collection [ts]. *)
Definition notifications (os : list TaskObserver) (ts : list Task) : list Call :=
  map (λ o, Update o ts) os.

(** The collections handed to listener [o] in a stretch of the call log,
    one per call of its [update]. *)
Fixpoint updatesTo (o : TaskObserver) (cs : list Call) : list (list Task) :=
  match cs with
  | [] => []
  | Update o' ts :: cs' =>
      if decide (o' = o) then ts :: updatesTo o cs' else updatesTo o cs'
  | _ :: cs' => updatesTo o cs'
  end.

(** The [setItem] calls in a stretch of the call log. *)
Fixpoint setItems (cs : list Call) : list (string * string) :=
  match cs with
  | [] => []
  | SetItem k v :: cs' => (k, v) :: setItems cs'
  | _ :: cs' => setItems cs'
  end.

(** How many times [o] occurs in a list of registrations. *)
Definition count (o : TaskObserver) (os : list TaskObserver) : nat :=
  length (filter (λ o', o' = o) os).
Global Arguments count : simpl never.

(** How many times [o] is registered. *)
Definition registrations (o : TaskObserver) (w : World) : nat :=
  count o (observers (taskSubject w)).

(** The world after the collection [ts] was set, announced and saved. *)
Definition published (ts : list Task) (w : World) : World :=
  {| taskSubject := {| observers := observers (taskSubject w); tasks := ts |};
     localStorage := <[TaskService.STORAGE_KEY := JSON.stringify ts]> (localStorage w);
     dates := dates w;
     uuids := uuids w;
     calls := calls w
              ++ notifications (observers (taskSubject w)) ts
              ++ [SetItem TaskService.STORAGE_KEY (JSON.stringify ts)] |}.

(** The world after [n] more evaluations of [new Date()]. *)
Definition later (n : nat) (w : World) : World :=
  {| taskSubject := taskSubject w; localStorage := localStorage w;
     dates := n + dates w; uuids := uuids w; calls := calls w |}.

(** [{ ...task, updatedAt: d }]. *)
Definition stamped (task : Task) (d : Date) : Task :=
  {| id := id task; title := title task; description := description task;
     state := state task; priority := priority task;
     createdAt := createdAt task; updatedAt := d |}.

(** What [updateTask task] makes of a collection when the first
    [new Date()] it evaluates is number [k]. *)
Fixpoint restamp `{Environment} (task : Task) (k : nat) (l : list Task)
  : list Task :=
  match l with
  | [] => []
  | t :: l' =>
      if decide (id t = id task)
      then stamped task (DateAt (now k)) :: restamp task (S k) l'
      else t :: restamp task k l'
  end.

(** The tasks of a collection that carry the identifier [i]. *)
Definition matching (i : string) (l : list Task) : list Task :=
  filter (λ t, id t = i) l.

(** The tasks of a collection that carry another identifier than [i]. *)
Definition others (i : string) (l : list Task) : list Task :=
  filter (λ t, id t ≠ i) l.

(** [task.state = s; task.updatedAt = d]. *)
Definition assigned (task : Task) (s : TaskState) (d : Date) : Task :=
  {| id := id task; title := title task; description := description task;
     state := s; priority := priority task;
     createdAt := createdAt task; updatedAt := d |}.

(** The stretch of the call log that a computation adds. *)
Definition callsOf {A} (m : M A) (w : World) : list Call :=
  drop (length (calls w)) (calls (exec m w)).

(** The mutating operations of the service. *)
Inductive Mutation : Type :=
  | CreateTask (title description : string) (priority : TaskPriority)
  | UpdateTask (task : Task)
  | DeleteTask (taskId : string)
  | ChangeTaskState (task : Task) (newState : TaskState).

Definition perform `{Environment} (op : Mutation) : M unit :=
  match op with
  | CreateTask t d p => TaskService.createTask t d p;; mret tt
  | UpdateTask task => TaskService.updateTask task
  | DeleteTask i => TaskService.deleteTask i
  | ChangeTaskState task s => TaskService.changeTaskState task s;; mret tt
  end.

(** A state change is in scope when its target is a member of the
    enumeration. *)
Definition inEnumeration (op : Mutation) : Prop :=
  match op with
  | ChangeTaskState _ s => s ∈ TaskState.members
  | _ => True
  end.

(** What a client may ask of the service. *)
Inductive Request : Type :=
  | Mutate (op : Mutation)
  | Attach (observer : TaskObserver)
  | Detach (observer : TaskObserver).

Definition serve `{Environment} (r : Request) : M unit :=
  match r with
  | Mutate op => perform op
  | Attach o => TaskService.attachObserver o
  | Detach o => TaskService.detachObserver o
  end.

(** The world after a sequence of requests, served in order. *)
Fixpoint run `{Environment} (rs : list Request) (w : World) : World :=
  match rs with
  | [] => w
  | r :: rs' => run rs' (exec (serve r) w)
  end.

(** A request hands over a task whose [createdAt] is not ahead of the
    clock, if it hands over a task at all. *)
Definition timely `{Environment} (r : Request) (w : World) : Prop :=
  match r with
  | Mutate (UpdateTask task) | Mutate (ChangeTaskState task _) =>
      Date.le (createdAt task) (DateAt (now (dates w)))
  | _ => True
  end.

Fixpoint allTimely `{Environment} (rs : list Request) (w : World) : Prop :=
  match rs with
  | [] => True
  | r :: rs' => timely r w ∧ allTimely rs' (exec (serve r) w)
  end.

(** The invariant of the timestamps. *)
Definition createdBeforeUpdated (t : Task) : Prop :=
  Date.le (createdAt t) (updatedAt t).

(** The clock never runs backwards. *)
Definition monotone `{Environment} : Prop :=
  ∀ i j : nat, (i ≤ j)%nat → now i <= now j.

(** No two identifiers handed out are the same. *)
Definition unique `{Environment} : Prop :=
  ∀ i j : nat, uuidv4 i = uuidv4 j → i = j.

(** JSON values without parts, as far as tasks use them: strings and
    [null]. *)
Definition leaf (v : JSON) : Prop :=
  match v with
  | JString _ | JNull => True
  | _ => False
  end.

(** Objects that have members, all of them leaves, and the number of
    nested calls it takes to read one. *)
Definition flat (v : JSON) : Prop :=
  match v with
  | JObject ms => ms ≠ [] ∧ Forall (λ m, leaf m.2) ms
  | _ => False
  end.

Definition depth (v : JSON) : nat :=
  match v with
  | JObject ms => length ms + 2
  | _ => 1
  end.

(** The number of nested calls it takes to read the elements of an
    array. *)
Fixpoint depths (l : list JSON) : nat :=
  match l with
  | [] => 0
  | x :: l' => depth x + 1 + depths l'
  end.

(** What becomes of a date that is written as JSON and read back: an
    invalid date is written as [null], which [new Date] reads as the
    epoch. *)
Definition revived (d : Date) : Date :=
  match d with
  | DateAt tv => DateAt tv
  | InvalidDate => DateAt 0
  end.

Definition reloaded (t : Task) : Task :=
  {| id := id t; title := title t; description := description t;
     state := state t; priority := priority t;
     createdAt := revived (createdAt t); updatedAt := revived (updatedAt t) |}.

(** The dates a [Date] object can hold. *)
Definition storable (d : Date) : Prop := d = InvalidDate ∨ Date.valid d.

(** Both timestamps of a task are valid dates. *)
Definition validTimestamps (t : Task) : Prop :=
  Date.valid (createdAt t) ∧ Date.valid (updatedAt t).

(** The identifiers handed out so far. *)
Definition issued `{Environment} (w : World) : list string :=
  map uuidv4 (seq 0 (uuids w)).

(** ** A concrete environment and worlds, for the examples *)

Fixpoint tally (n : nat) : string :=
  match n with
  | O => EmptyString
  | S n' => String "i" (tally n')
  end.

(** A clock that advances by a second at each reading, and identifiers
    [task-], [task-i], [task-ii], ... *)
Definition steadyEnvironment : Environment :=
  {| now := λ i, 1000 * Z.of_nat i;
     uuidv4 := λ i, "task-" +:+ tally i |}.

(** A service without tasks, with the listeners [os] registered, over an
    empty storage. *)
Definition worldWith (os : list TaskObserver) : World :=
  {| taskSubject := {| observers := os; tasks := [] |};
     localStorage := ∅; dates := 0; uuids := 0; calls := [] |}.

(** The task that a first [createTask], of "Buy milk" with a low
    priority, makes in the steady environment, and the world after that
    call when listener 1 was registered beforehand. *)
Definition milk : Task :=
  {| id := "task-"; title := "Buy milk"; description := EmptyString;
     state := TaskState.NEW; priority := TaskPriority.LOW;
     createdAt := DateAt 0; updatedAt := DateAt 0 |}.

Definition worldWithMilk : World :=
  exec (TaskService.createTask (H := steadyEnvironment)
          "Buy milk" EmptyString TaskPriority.LOW) (worldWith [1%nat]).

(** An edit of [milk] by a caller who hands over an invalid date as
    [createdAt], and the world after [milk] was created and that edit
    made. *)
Definition undatedMilk : Task :=
  {| id := "task-"; title := "Buy milk"; description := EmptyString;
     state := TaskState.NEW; priority := TaskPriority.LOW;
     createdAt := InvalidDate; updatedAt := DateAt 0 |}.

Definition worldWithUndatedMilk : World :=
  exec (TaskService.updateTask (H := steadyEnvironment) undatedMilk)
    worldWithMilk.

(** An edit of [milk] by a caller who moves [createdAt] to a later date. *)
Definition postdatedMilk : Task :=
  {| id := "task-"; title := "Buy milk"; description := EmptyString;
     state := TaskState.NEW; priority := TaskPriority.LOW;
     createdAt := DateAt 5000; updatedAt := DateAt 0 |}.

(** An edit of [milk] by a caller who also sets [updatedAt] to a time
    before the epoch. *)
Definition oatMilk : Task :=
  {| id := "task-"; title := "Buy oat milk"; description := EmptyString;
     state := TaskState.NEW; priority := TaskPriority.LOW;
     createdAt := DateAt 0; updatedAt := DateAt (-5) |}.

(** ** More vocabulary: loading, restarting, identifiers, the list shown *)

(** The world after [getItem("tasks")] was called. *)
Definition asked (w : World) : World :=
  {| taskSubject := taskSubject w; localStorage := localStorage w;
     dates := dates w; uuids := uuids w;
     calls := calls w ++ [GetItem TaskService.STORAGE_KEY] |}.

(** A completion that is not a normal return. *)
Definition failed {A} (c : Completion A) : Prop :=
  match c with
  | Normal _ => False
  | _ => True
  end.

(** The storage holds what a restart needs to find the collection again:
    nothing was ever saved and the collection is empty, or the item
    "tasks" is the serialized collection. *)
Definition stored (w : World) : Prop :=
  (tasks (taskSubject w) = [] ∧ localStorage w !! TaskService.STORAGE_KEY = None)
  ∨ localStorage w !! TaskService.STORAGE_KEY
    = Some (JSON.stringify (tasks (taskSubject w))).

(** Every reading of the clock is a time value a [Date] can hold. *)
Definition clocked `{Environment} : Prop := ∀ i : nat, Date.inRange (now i).

(** A request hands over a task whose [createdAt] is a valid date, if it
    hands over a task at all. *)
Definition wellDated (r : Request) : Prop :=
  match r with
  | Mutate (UpdateTask task) | Mutate (ChangeTaskState task _) =>
      Date.valid (createdAt task)
  | _ => True
  end.

(** The stored identifiers are pairwise distinct and were all handed out
    by the generator. *)
Definition identified `{Environment} (w : World) : Prop :=
  NoDup (map id (tasks (taskSubject w)))
  ∧ Forall (λ s, id s ∈ issued w) (tasks (taskSubject w)).

(** The rank of a task's priority, and the time value of its creation
    (0 when the date is invalid). *)
Definition level (t : Task) : Z :=
  getPriorityLevel (PriorityStrategyFactory.getStrategy (priority t)).

Definition creation (t : Task) : Z :=
  match createdAt t with
  | DateAt tv => tv
  | InvalidDate => 0
  end.

(** The tasks the list is asked to show, before they are sorted. *)
Definition wanted (filter_ : string) (ts : list Task) : list Task :=
  filter (λ task, filter_ = "ALL"%string ∨ state task = filter_) ts.

(** Every character of a string is white space. *)
Fixpoint blank (s : string) : Prop :=
  match s with
  | EmptyString => True
  | String c s' => TaskForm.isWhiteSpace c = true ∧ blank s'
  end.

(** A storage whose item "tasks" is not JSON, and one where it is the
    empty string. *)
Definition worldWithGarbage : World :=
  {| taskSubject := {| observers := [1%nat]; tasks := [milk] |};
     localStorage := {[ "tasks"%string := "<html>"%string ]};
     dates := 1; uuids := 1; calls := [] |}.

Definition worldWithEmptyItem : World :=
  {| taskSubject := {| observers := [1%nat]; tasks := [milk] |};
     localStorage := {[ "tasks"%string := EmptyString ]};
     dates := 1; uuids := 1; calls := [] |}.

(** A second task, of high priority, created later than [milk]. *)
Definition callMum : Task :=
  {| id := "task-i"; title := "Call mum"; description := EmptyString;
     state := TaskState.IN_PROGRESS; priority := TaskPriority.HIGH;
     createdAt := DateAt 1000; updatedAt := DateAt 1000 |}.

(** A call that announces the collection to a listener or saves it under
    the key of the service. *)
Definition announcement (c : Call) : Prop :=
  match c with
  | Update _ _ => True
  | SetItem key _ => key = TaskService.STORAGE_KEY
  | _ => False
  end.

(** The collection the list component holds in its state [tasks]: the one
    its effect loaded, until the listener [o] it registered is called,
    and from then on the one handed to the last such call in the stretch
    [cs] of the call log. *)
Definition shown (o : TaskObserver) (loaded : list Task) (cs : list Call)
  : list Task :=
  default loaded (last (updatesTo o cs)).

(** The order of a list sorted by [key], the greatest first. *)
Definition descending (key : Task → Z) (a b : Task) : Prop := key b <= key a.

(** A clock that stops at the last instant a [Date] can hold. *)
Definition cappedEnvironment : Environment :=
  {| now := λ i, Z.min (1000 * Z.of_nat i) Date.maxTime;
     uuidv4 := λ i, "task-" +:+ tally i |}.

(* ===================================================================== *)
(** * Running the operations *)
(* ===================================================================== *)

Section Runs.
Context `{Environment}.

Lemma forOf_update (os : list TaskObserver) (w : World) :
  forOf os (λ o, ts ← gets (λ w, tasks (taskSubject w)); update o ts) w
  = (tt, {| taskSubject := taskSubject w; localStorage := localStorage w;
            dates := dates w; uuids := uuids w;
            calls := calls w ++ notifications os (tasks (taskSubject w)) |}).
Proof.
  revert w. induction os as [|o os IH]; intros w.
  - destruct w; cbn. by rewrite app_nil_r.
  - cbn. unfold mbind, M_bind at 1. cbn. rewrite IH. cbn.
    by rewrite <- app_assoc.
Qed.

Lemma setTasks_run (ts : list Task) (w : World) :
  TaskSubject.setTasks ts w
  = (tt, {| taskSubject := {| observers := observers (taskSubject w);
                              tasks := ts |};
            localStorage := localStorage w;
            dates := dates w; uuids := uuids w;
            calls := calls w ++ notifications (observers (taskSubject w)) ts |}).
Proof.
  unfold TaskSubject.setTasks, TaskSubject.notify. cbn.
  unfold mbind, M_bind. cbn. by rewrite forOf_update.
Qed.

Lemma saveTasks_run (w : World) :
  TaskService.saveTasks w
  = (tt, {| taskSubject := taskSubject w;
            localStorage :=
              <[TaskService.STORAGE_KEY := JSON.stringify (tasks (taskSubject w))]>
                (localStorage w);
            dates := dates w; uuids := uuids w;
            calls := calls w ++ [SetItem TaskService.STORAGE_KEY
                                   (JSON.stringify (tasks (taskSubject w)))] |}).
Proof. reflexivity. Qed.

Lemma publish_run (ts : list Task) (w : World) :
  (TaskSubject.setTasks ts;; TaskService.saveTasks) w = (tt, published ts w).
Proof.
  unfold mbind at 1, M_bind at 1. rewrite setTasks_run, saveTasks_run.
  unfold published. cbn. by rewrite <- app_assoc.
Qed.

Lemma createTask_run title description priority (w : World) :
  TaskService.createTask title description priority w
  = let task := {| id := uuidv4 (uuids w); title := title;
                   description := description; state := TaskState.NEW;
                   priority := priority;
                   createdAt := DateAt (now (dates w));
                   updatedAt := DateAt (now (dates w)) |} in
    (task,
     published (tasks (taskSubject w) ++ [task])
       {| taskSubject := taskSubject w; localStorage := localStorage w;
          dates := S (dates w); uuids := S (uuids w); calls := calls w |}).
Proof.
  unfold TaskService.createTask, ConcreteTaskFactory.createTask.
  unfold mbind, M_bind. cbn. rewrite setTasks_run, saveTasks_run.
  unfold published, mret, M_ret. cbn. by rewrite <- app_assoc.
Qed.

Lemma mapM_replaceBy (task : Task) (l : list Task) (w : World) :
  mapM (TaskService.replaceBy task) l w
  = (restamp task (dates w) l, later (length (matching (id task) l)) w).
Proof.
  revert w. induction l as [|t l IH]; intros w.
  - by destruct w.
  - unfold matching in *. rewrite filter_cons.
    change (mapM (TaskService.replaceBy task) (t :: l) w)
      with (let '(y, w1) := TaskService.replaceBy task t w in
            let '(ys, w2) := mapM (TaskService.replaceBy task) l w1 in
            (y :: ys, w2)).
    unfold TaskService.replaceBy. cbn [restamp].
    destruct (decide (id t = id task)) as [E|N].
    + unfold mbind, M_bind, mret, M_ret, new_Date. rewrite IH. cbn.
      unfold later, stamped. cbn. do 2 f_equal. lia.
    + unfold mret, M_ret. rewrite IH. reflexivity.
Qed.

Lemma updateTask_run (task : Task) (w : World) :
  TaskService.updateTask task w
  = (tt, published (restamp task (dates w) (tasks (taskSubject w)))
           (later (length (matching (id task) (tasks (taskSubject w)))) w)).
Proof.
  unfold TaskService.updateTask. cbn. unfold mbind at 1 2, M_bind at 1 2.
  cbn. rewrite mapM_replaceBy. apply publish_run.
Qed.

Lemma deleteTask_run (taskId : string) (w : World) :
  TaskService.deleteTask taskId w
  = (tt, published (others taskId (tasks (taskSubject w))) w).
Proof.
  unfold TaskService.deleteTask. cbn. unfold mbind at 1, M_bind at 1.
  cbn. apply publish_run.
Qed.

Lemma changeTaskState_run (task : Task) (newState : TaskState) (w : World) :
  newState ∈ TaskState.members →
  TaskService.changeTaskState task newState w
  = let task' := assigned task newState (DateAt (now (dates w))) in
    (task', exec (TaskService.updateTask task') (later 1 w)).
Proof.
  intros Hs. unfold TaskService.changeTaskState.
  assert (∃ h, TaskService._getHandlerForState newState = Some h
               ∧ handleState h = assignState newState) as (h & -> & Hh).
  { unfold TaskState.members in Hs.
    repeat (apply elem_of_cons in Hs as [->|Hs]);
      [| | | | by apply elem_of_nil in Hs];
      (eexists; split; reflexivity). }
  rewrite Hh. unfold assignState, mbind, M_bind, mret, M_ret, new_Date. cbn.
  unfold exec. by destruct (TaskService.updateTask _ _) as [[] ?].
Qed.

Lemma callsOf_app {A} (m : M A) (w : World) (cs : list Call) :
  calls (exec m w) = calls w ++ cs → callsOf m w = cs.
Proof. unfold callsOf. intros ->. by rewrite drop_app_length. Qed.

Lemma updatesTo_app o cs1 cs2 :
  updatesTo o (cs1 ++ cs2) = updatesTo o cs1 ++ updatesTo o cs2.
Proof.
  induction cs1 as [|[o' ts| | |] cs1 IH]; cbn; try done.
  case_decide; cbn; by rewrite IH.
Qed.

Lemma updatesTo_notifications o os ts :
  updatesTo o (notifications os ts)
  = replicate (count o os) ts.
Proof.
  unfold count. induction os as [|o' os IH]; [done|].
  rewrite filter_cons. cbn [notifications map updatesTo].
  fold (notifications os ts). case_decide; cbn; by rewrite IH.
Qed.

Lemma setItems_app cs1 cs2 :
  setItems (cs1 ++ cs2) = setItems cs1 ++ setItems cs2.
Proof. induction cs1 as [|[] cs1 IH]; cbn; by rewrite ?IH. Qed.

Lemma setItems_notifications os ts : setItems (notifications os ts) = [].
Proof. by induction os. Qed.

(** Every mutation ends by publishing the collection it has built, in a
    world that differs from the one it started in by the clock and the
    identifiers only. *)
Lemma perform_publishes (op : Mutation) (w : World) :
  inEnumeration op →
  ∃ ts w0, exec (perform op) w = published ts w0
           ∧ taskSubject w0 = taskSubject w
           ∧ localStorage w0 = localStorage w
           ∧ calls w0 = calls w.
Proof.
  intros Hop. destruct op as [t d p|task|i|task s]; unfold perform, exec.
  - unfold mbind, M_bind. rewrite createTask_run. cbn. eauto 10.
  - rewrite updateTask_run. cbn. eauto 10.
  - rewrite deleteTask_run. cbn. eauto 10.
  - unfold mbind, M_bind. rewrite changeTaskState_run by done. cbn.
    unfold exec. rewrite updateTask_run. cbn. eauto 10.
Qed.

(** *** The collection [updateTask] builds *)

Lemma restamp_length task k l : length (restamp task k l) = length l.
Proof.
  revert k. induction l as [|t l IH]; intros k; [done|].
  cbn. case_decide; cbn; by rewrite IH.
Qed.

(** Position by position: a task with the argument's identifier gives
    way to the argument, stamped with the reading of the clock that
    follows those taken for the matching tasks before it; any other
    task stays. *)
Lemma restamp_lookup task k l (i : nat) s :
  l !! i = Some s →
  restamp task k l !! i
  = Some (if decide (id s = id task)
          then stamped task
                 (DateAt (now (k + length (matching (id task) (take i l)))))
          else s).
Proof.
  revert k i. induction l as [|t l IH]; intros k i Hi; [done|].
  destruct i as [|i]; cbn in Hi.
  - injection Hi as ->. cbn. case_decide; cbn; [|done].
    do 4 f_equal. unfold matching. cbn. lia.
  - cbn [restamp take]. unfold matching in *. rewrite filter_cons.
    destruct (decide (id t = id task)); cbn -[decide].
    + rewrite (IH _ _ Hi). do 2 f_equal. case_decide; [|done].
      do 3 f_equal. lia.
    + by rewrite (IH _ _ Hi).
Qed.

Lemma restamp_others task k l :
  others (id task) (restamp task k l) = others (id task) l.
Proof.
  revert k. induction l as [|t l IH]; intros k; [done|].
  unfold others in *. cbn [restamp].
  destruct (decide (id t = id task)) as [E|N].
  - rewrite filter_cons_False by (intros N; by apply N).
    rewrite (filter_cons_False _ t) by (intros N; by apply N). apply IH.
  - rewrite !filter_cons_True by done. by rewrite IH.
Qed.



Lemma matching_take_lt i (n : nat) l s :
  l !! n = Some s → id s = i →
  (length (matching i (take n l)) < length (matching i l))%nat.
Proof.
  intros Hn Hs. unfold matching.
  rewrite <- (take_drop_middle l n s Hn) at 2.
  rewrite filter_app, length_app, filter_cons_True by done. cbn. lia.
Qed.

(** *** Stamps and the clock *)

Lemma le_now_monotone (d : Date) (i j : nat) :
  monotone → (i ≤ j)%nat →
  Date.le d (DateAt (now i)) → Date.le d (DateAt (now j)).
Proof.
  intros Hm Hij. destruct d as [x|]; cbn; [|done].
  specialize (Hm i j Hij). lia.
Qed.

End Runs.

Lemma tally_length n : String.length (tally n) = n.
Proof. induction n; cbn; congruence. Qed.

Lemma steadyEnvironment_unique : unique (H := steadyEnvironment).
Proof.
  intros i j E. cbn in E. apply (inj (String.app "task-")) in E as E'.
  apply (f_equal String.length) in E'. by rewrite !tally_length in E'.
Qed.

Lemma steadyEnvironment_monotone : monotone (H := steadyEnvironment).
Proof. intros i j Hij. cbn. lia. Qed.

(* ===================================================================== *)
(** * The mutating operations: notification and persistence *)
(* ===================================================================== *)

Section Mutations.
Context `{Environment}.

(** C1 (as amended).  Every mutating operation (createTask, updateTask,
    deleteTask, and changeTaskState with a target state of the
    enumeration) leaves the registrations as they are and adds to the
    call log exactly one pass of notifications followed by exactly one
    setItem: every listener's update is called once per registration of
    that listener, each time with the collection the store holds after
    the operation, and setItem is called once, with the key "tasks" and
    that collection serialized. *)
Theorem mutation_notifies_per_registration_and_persists_once
    (op : Mutation) (w : World) :
  inEnumeration op →
  let w' := exec (perform op) w in
  let ts := tasks (taskSubject w') in
  observers (taskSubject w') = observers (taskSubject w)
  ∧ calls w' = calls w ++ callsOf (perform op) w
  ∧ callsOf (perform op) w
    = notifications (observers (taskSubject w)) ts
      ++ [SetItem "tasks" (JSON.stringify ts)]
  ∧ (∀ o, updatesTo o (callsOf (perform op) w)
          = replicate (registrations o w) ts)
  ∧ setItems (callsOf (perform op) w) = [("tasks"%string, JSON.stringify ts)].
Proof.
  intros Hop. cbn zeta.
  destruct (perform_publishes op w Hop) as (ts & w0 & Hrun & Hsub & _ & Hcalls).
  assert (Hlog : calls (exec (perform op) w)
                 = calls w ++ notifications (observers (taskSubject w)) ts
                            ++ [SetItem "tasks" (JSON.stringify ts)]).
  { rewrite Hrun. unfold published. cbn. by rewrite Hsub, Hcalls. }
  pose proof (callsOf_app _ _ _ Hlog) as Hcs. rewrite Hcs.
  replace (tasks (taskSubject (exec (perform op) w))) with ts
    by (by rewrite Hrun).
  split; [by rewrite Hrun; cbn; rewrite Hsub|].
  split; [done|]. split; [done|]. split.
  - intros o. rewrite updatesTo_app, updatesTo_notifications. cbn.
    by rewrite app_nil_r.
  - by rewrite setItems_app, setItems_notifications.
Qed.

End Mutations.

Section MutationExamples.
Local Existing Instance steadyEnvironment.

Lemma mutation_notifies_per_registration_and_persists_once_witness :
  inEnumeration (ChangeTaskState milk TaskState.POSTPONED)
  ∧ ∀ o, updatesTo o (callsOf (perform (ChangeTaskState milk TaskState.POSTPONED))
                        worldWithMilk)
         = replicate (registrations o worldWithMilk)
             (tasks (taskSubject
                       (exec (perform (ChangeTaskState milk TaskState.POSTPONED))
                          worldWithMilk))).
Proof.
  split.
  - vm_compute. set_solver.
  - apply (mutation_notifies_per_registration_and_persists_once
             (ChangeTaskState milk TaskState.POSTPONED) worldWithMilk).
    vm_compute. set_solver.
Defined.

(** C1, as it is worded, fails for a listener that is attached twice: its
    update is called twice by one createTask, not exactly once. *)
Lemma listener_attached_twice_is_called_twice :
  let w := worldWith [7%nat; 7%nat] in
  let op := CreateTask "Buy milk" EmptyString TaskPriority.LOW in
  7%nat ∈ observers (taskSubject w)
  ∧ length (updatesTo 7%nat (callsOf (perform op) w)) = 2%nat
  ∧ length (updatesTo 7%nat (callsOf (perform op) w)) ≠ 1%nat.
Proof.
  cbn zeta. split; [set_solver|]. vm_compute.
  split; [reflexivity|discriminate].
Qed.

End MutationExamples.

(* ===================================================================== *)
(** * [updateTask] *)
(* ===================================================================== *)

Section UpdateTask.
Context `{Environment}.


End UpdateTask.

Section UpdateTaskExamples.
Local Existing Instance steadyEnvironment.


Example updateTask_oatMilk :
  tasks (taskSubject (exec (TaskService.updateTask oatMilk) worldWithMilk))
  = [stamped oatMilk (DateAt 1000)].
Proof. reflexivity. Qed.

End UpdateTaskExamples.

(* ===================================================================== *)
(** * [changeTaskState] and the advisory table *)
(* ===================================================================== *)

Section States.
Context `{Environment}.

(** C2.  For every task t, every state S of the enumeration and every
    world, changeTaskState(t, S) picks its handler by S and not by the
    state of t (the outcome is the same whatever state t is in); it
    leaves t with state S and updatedAt read from the clock and with
    its other fields as they were; it then runs updateTask on that
    task, so that every stored task with the identifier of t ends in
    state S; and the call log grows by exactly one pass of
    notifications and one setItem.  S need not be what the table
    advertises for the state of t. *)
Theorem changeTaskState_sets_any_state_of_the_enumeration
    (task : Task) (newState : TaskState) (w : World) :
  newState ∈ TaskState.members →
  let task' := eval (TaskService.changeTaskState task newState) w in
  let w' := exec (TaskService.changeTaskState task newState) w in
  let ts' := tasks (taskSubject w') in
  (∃ handler, TaskService._getHandlerForState newState = Some handler
              ∧ handleState handler = assignState newState)
  ∧ (∀ s d, TaskService.changeTaskState (assigned task s d) newState w
            = TaskService.changeTaskState task newState w)
  ∧ task' = assigned task newState (DateAt (now (dates w)))
  ∧ state task' = newState
  ∧ w' = exec (TaskService.updateTask task') (later 1 w)
  ∧ (∀ (i : nat) s, tasks (taskSubject w) !! i = Some s → id s = id task →
       ∃ t', ts' !! i = Some t' ∧ state t' = newState)
  ∧ callsOf (TaskService.changeTaskState task newState) w
    = notifications (observers (taskSubject w)) ts'
      ++ [SetItem "tasks" (JSON.stringify ts')].
Proof.
  intros Hs. cbn zeta. unfold eval, exec, callsOf, exec.
  rewrite changeTaskState_run by done. cbn zeta. cbn [fst snd].
  split; [|split; [|split; [|split; [|split; [|split]]]]]; try done.
  - unfold TaskState.members in Hs.
    repeat (apply elem_of_cons in Hs as [->|Hs]);
      [| | | | by apply elem_of_nil in Hs];
      (eexists; split; reflexivity).
  - intros s d. by rewrite changeTaskState_run.
  - intros i s Hi Hid. unfold exec. rewrite updateTask_run. cbn.
    rewrite (restamp_lookup _ _ _ _ _ Hi). cbn. rewrite decide_True by done.
    eauto.
  - unfold exec. rewrite updateTask_run. cbn. by rewrite drop_app_length.
Qed.

(** C3.  getPossibleNextState and getPossiblePreviousState answer from
    the state the task is in, by the table
      NEW          next IN_PROGRESS  previous none
      IN_PROGRESS  next COMPLETED    previous NEW
      COMPLETED    next none         previous IN_PROGRESS
      POSTPONED    next IN_PROGRESS  previous NEW
    and leave the world (the collection, the storage, the call log) as
    it was; they only return a value, the task is not assigned to. *)
Theorem advisory_table_queries (task : Task) (w : World) :
  let next := eval (TaskService.getPossibleNextState task) w in
  let previous := eval (TaskService.getPossiblePreviousState task) w in
  (state task = TaskState.NEW →
     next = Some TaskState.IN_PROGRESS ∧ previous = None)
  ∧ (state task = TaskState.IN_PROGRESS →
     next = Some TaskState.COMPLETED ∧ previous = Some TaskState.NEW)
  ∧ (state task = TaskState.COMPLETED →
     next = None ∧ previous = Some TaskState.IN_PROGRESS)
  ∧ (state task = TaskState.POSTPONED →
     next = Some TaskState.IN_PROGRESS ∧ previous = Some TaskState.NEW)
  ∧ exec (TaskService.getPossibleNextState task) w = w
  ∧ exec (TaskService.getPossiblePreviousState task) w = w.
Proof.
  cbn zeta. unfold eval, exec, TaskService.getPossibleNextState,
    TaskService.getPossiblePreviousState. cbn.
  repeat match goal with
         | |- _ ∧ _ => split
         | |- _ = _ → _ => intros ->
         end; reflexivity.
Qed.

End States.

Section StatesExamples.
Local Existing Instance steadyEnvironment.

Lemma changeTaskState_sets_any_state_of_the_enumeration_witness :
  TaskState.COMPLETED ∈ TaskState.members
  ∧ state (eval (TaskService.changeTaskState milk TaskState.COMPLETED)
             worldWithMilk) = TaskState.COMPLETED.
Proof.
  split; [vm_compute; set_solver|].
  apply (changeTaskState_sets_any_state_of_the_enumeration
           milk TaskState.COMPLETED worldWithMilk).
  vm_compute. set_solver.
Defined.

(** NEW to COMPLETED is not in the table, and is carried out: the stored
    task ends COMPLETED, stamped with the second of the two clock readings
    of the call. *)
Example changeTaskState_NEW_to_COMPLETED :
  eval (TaskService.getPossibleNextState milk) worldWithMilk
  = Some TaskState.IN_PROGRESS
  ∧ tasks (taskSubject (exec (TaskService.changeTaskState milk TaskState.COMPLETED)
                          worldWithMilk))
    = [assigned milk TaskState.COMPLETED (DateAt 2000)]
  ∧ eval (TaskService.changeTaskState milk TaskState.COMPLETED) worldWithMilk
    = assigned milk TaskState.COMPLETED (DateAt 1000).
Proof. repeat split. Qed.

(** A target outside the enumeration has no handler: nothing happens. *)
Example changeTaskState_unknown_state :
  TaskService.changeTaskState milk "ARCHIVED" worldWithMilk = (milk, worldWithMilk).
Proof. reflexivity. Qed.

End StatesExamples.

(* ===================================================================== *)
(** * The priority table *)
(* ===================================================================== *)

(** C9.  The priority lookup gives HIGH rank 3 and colour #ff4d4d, MEDIUM
    rank 2 and colour #ffa64d, LOW rank 1 and colour #4dff4d, and gives
    every value that is not a member of the enumeration the entry of
    MEDIUM; it answers for every value. *)
Theorem priority_lookup_table_and_default :
  getPriorityLevel (PriorityStrategyFactory.getStrategy TaskPriority.HIGH) = 3
  ∧ getColor (PriorityStrategyFactory.getStrategy TaskPriority.HIGH)
    = "#ff4d4d"%string
  ∧ getPriorityLevel (PriorityStrategyFactory.getStrategy TaskPriority.MEDIUM) = 2
  ∧ getColor (PriorityStrategyFactory.getStrategy TaskPriority.MEDIUM)
    = "#ffa64d"%string
  ∧ getPriorityLevel (PriorityStrategyFactory.getStrategy TaskPriority.LOW) = 1
  ∧ getColor (PriorityStrategyFactory.getStrategy TaskPriority.LOW)
    = "#4dff4d"%string
  ∧ ∀ priority : TaskPriority,
      priority ∉ TaskPriority.members →
      PriorityStrategyFactory.getStrategy priority
      = PriorityStrategyFactory.getStrategy TaskPriority.MEDIUM
      ∧ getPriorityLevel (PriorityStrategyFactory.getStrategy priority) = 2
      ∧ getColor (PriorityStrategyFactory.getStrategy priority)
        = "#ffa64d"%string.
Proof.
  repeat (split; [reflexivity|]). intros priority Hp.
  unfold PriorityStrategyFactory.getStrategy.
  repeat case_decide; subst; try (exfalso; apply Hp; vm_compute; set_solver);
    repeat split.
Qed.

Example priority_lookup_unknown :
  PriorityStrategyFactory.getStrategy "UNKNOWN" = MediumPriorityStrategy.
Proof. reflexivity. Qed.

(* ===================================================================== *)
(** * [createTask] *)
(* ===================================================================== *)

Section CreateTask.
Context `{Environment}.

Lemma issued_lt (w : World) (i : string) :
  i ∈ issued w ↔ ∃ k : nat, (k < uuids w)%nat ∧ i = uuidv4 k.
Proof.
  unfold issued. rewrite list_elem_of_fmap. split.
  - intros (k & -> & Hk). apply elem_of_seq in Hk. exists k. split; [lia|done].
  - intros (k & Hk & ->). exists k. split; [done|]. apply elem_of_seq. lia.
Qed.

(** C5.  For every title (the empty one included), description and
    priority, createTask returns a task in state NEW, with createdAt
    and updatedAt both equal to the one reading of the clock taken by
    the call, with the title, description and priority given, and with
    the next identifier of the generator; the stored collection is the
    former one with that task appended as last element.  When the
    generator never repeats itself and the stored identifiers all came
    from it, the identifier differs from every stored one. *)
Theorem createTask_appends_a_fresh_NEW_task
    (title_ description_ : string) (priority_ : TaskPriority) (w : World) :
  unique →
  Forall (λ s, id s ∈ issued w) (tasks (taskSubject w)) →
  let task := eval (TaskService.createTask title_ description_ priority_) w in
  let w' := exec (TaskService.createTask title_ description_ priority_) w in
  state task = TaskState.NEW
  ∧ createdAt task = DateAt (now (dates w))
  ∧ updatedAt task = createdAt task
  ∧ title task = title_
  ∧ description task = description_
  ∧ priority task = priority_
  ∧ id task = uuidv4 (uuids w)
  ∧ Forall (λ s, id s ≠ id task) (tasks (taskSubject w))
  ∧ tasks (taskSubject w') = tasks (taskSubject w) ++ [task]
  ∧ last (tasks (taskSubject w')) = Some task.
Proof.
  intros Hu Hi. cbn zeta. unfold eval, exec. rewrite createTask_run. cbn.
  repeat (split; [reflexivity|]). split; [|split; [done|by rewrite last_snoc]].
  eapply Forall_impl; [exact Hi|]. cbn. intros s Hs E.
  apply issued_lt in Hs as (k & Hk & Hs). rewrite Hs in E.
  apply Hu in E. lia.
Qed.

End CreateTask.

Section CreateTaskExamples.
Local Existing Instance steadyEnvironment.

Lemma createTask_appends_a_fresh_NEW_task_witness :
  unique
  ∧ Forall (λ s, id s ∈ issued worldWithMilk) (tasks (taskSubject worldWithMilk))
  ∧ tasks (taskSubject (exec (TaskService.createTask EmptyString EmptyString
                                TaskPriority.HIGH) worldWithMilk))
    = tasks (taskSubject worldWithMilk)
      ++ [eval (TaskService.createTask EmptyString EmptyString TaskPriority.HIGH)
            worldWithMilk].
Proof.
  split; [exact steadyEnvironment_unique|].
  split; [repeat constructor|].
  apply (createTask_appends_a_fresh_NEW_task
           EmptyString EmptyString TaskPriority.HIGH worldWithMilk).
  - exact steadyEnvironment_unique.
  - repeat constructor.
Defined.

(** A blank title is taken as it is. *)
Example createTask_blank_title :
  eval (TaskService.createTask EmptyString EmptyString TaskPriority.HIGH)
    worldWithMilk
  = {| id := "task-i"; title := EmptyString; description := EmptyString;
       state := TaskState.NEW; priority := TaskPriority.HIGH;
       createdAt := DateAt 1000; updatedAt := DateAt 1000 |}.
Proof. reflexivity. Qed.

End CreateTaskExamples.

(* ===================================================================== *)
(** * Frame: what [updateTask] and [deleteTask] leave alone *)
(* ===================================================================== *)

Section Frame.
Context `{Environment}.

(** C10.  updateTask(t) keeps the length of the collection and leaves
    every stored task whose identifier differs from that of t at its
    position and unchanged; deleteTask(id) yields a subsequence of the
    collection that contains every task whose identifier differs from
    id; in both cases the tasks with other identifiers are, in order,
    the same tasks as before. *)
Theorem update_and_delete_leave_other_tasks_alone
    (task : Task) (taskId : string) (w : World) :
  let ts := tasks (taskSubject w) in
  let tsu := tasks (taskSubject (exec (TaskService.updateTask task) w)) in
  let tsd := tasks (taskSubject (exec (TaskService.deleteTask taskId) w)) in
  length tsu = length ts
  ∧ (∀ (i : nat) s, ts !! i = Some s → id s ≠ id task → tsu !! i = Some s)
  ∧ others (id task) tsu = others (id task) ts
  ∧ tsd `sublist_of` ts
  ∧ (∀ s, s ∈ ts → id s ≠ taskId → s ∈ tsd)
  ∧ others taskId tsd = others taskId ts.
Proof.
  cbn zeta. unfold exec. rewrite updateTask_run, deleteTask_run. cbn.
  split; [apply restamp_length|]. split; [|split; [|split; [|split]]].
  - intros i s Hi Hs. rewrite (restamp_lookup _ _ _ _ _ Hi).
    by rewrite decide_False.
  - apply restamp_others.
  - apply sublist_filter.
  - intros s Hs Hid. by apply list_elem_of_filter.
  - unfold others. rewrite list_filter_filter. apply list_filter_iff. tauto.
Qed.

End Frame.

Section FrameExamples.
Local Existing Instance steadyEnvironment.

(** Two tasks are created and the first is deleted by its identifier: the
    second remains, as it was. *)
Example delete_first_of_two :
  let w2 := exec (TaskService.createTask "Call mum" EmptyString TaskPriority.HIGH)
              worldWithMilk in
  map id (tasks (taskSubject w2)) = ["task-"; "task-i"]%string
  ∧ tasks (taskSubject (exec (TaskService.deleteTask "task-") w2))
    = drop 1 (tasks (taskSubject w2)).
Proof. split; reflexivity. Qed.

End FrameExamples.

(* ===================================================================== *)
(** * Listeners: [attach], [detach] and the notifications they stand for *)
(* ===================================================================== *)

Section Observers.

Lemma count_cons (o y : TaskObserver) os :
  count o (y :: os) = ((if decide (y = o) then 1 else 0) + count o os)%nat.
Proof. unfold count. rewrite filter_cons. by case_decide. Qed.

Lemma count_app (o : TaskObserver) os1 os2 :
  count o (os1 ++ os2) = (count o os1 + count o os2)%nat.
Proof. unfold count. by rewrite filter_app, length_app. Qed.

Lemma indexOf_ge (x : TaskObserver) os : -1 <= indexOf x os.
Proof.
  induction os as [|y os IH]; cbn; [lia|].
  case_decide; [lia|]. destruct (Z.eqb_spec (indexOf x os) (-1)); lia.
Qed.

Lemma indexOf_absent (x : TaskObserver) os :
  indexOf x os = -1 ↔ x ∉ os.
Proof.
  induction os as [|y os IH]; cbn.
  - split; [intros _; apply not_elem_of_nil|done].
  - rewrite not_elem_of_cons. case_decide as E.
    + split; [lia|]. intros [N _]. by destruct N.
    + destruct (Z.eqb_spec (indexOf x os) (-1)) as [E1|N1].
      * split; [|done]. intros _. split; [done|]. by apply IH.
      * pose proof (indexOf_ge x os). split; [lia|].
        intros [_ N]. apply IH in N. lia.
Qed.

Lemma count_absent (x : TaskObserver) os : x ∉ os → count x os = 0%nat.
Proof.
  intros N. induction os as [|y os IH]; [done|].
  apply not_elem_of_cons in N as [N1 N2].
  rewrite count_cons, decide_False by done. by apply IH.
Qed.

Lemma count_present (x : TaskObserver) os : x ∈ os → (0 < count x os)%nat.
Proof.
  induction os as [|y os IH]; [by intros ?%elem_of_nil|].
  rewrite count_cons. case_decide; [lia|].
  intros [->|Hin]%elem_of_cons; [done|]. apply IH in Hin. lia.
Qed.

(** [detach] removes the first registration of the listener, if there is
    one. *)
Lemma count_splice_indexOf (l o : TaskObserver) os :
  indexOf l os ≠ -1 →
  count o (splice1 (indexOf l os) os)
  = (count o os - (if decide (l = o) then 1 else 0))%nat.
Proof.
  induction os as [|y os IH]; [done|]. cbn [indexOf].
  destruct (decide (y = l)) as [->|Nyl].
  - intros _. unfold splice1. change (Z.to_nat 0) with 0%nat.
    cbn [take drop app]. rewrite drop_0, count_cons. case_decide; lia.
  - destruct (Z.eqb_spec (indexOf l os) (-1)) as [E1|N1]; [done|].
    intros _. pose proof (indexOf_ge l os).
    unfold splice1 in *.
    replace (Z.to_nat (indexOf l os + 1)) with (S (Z.to_nat (indexOf l os)))
      by lia.
    cbn [take drop app]. rewrite !count_cons, IH by done.
    assert (l ∈ os) as Hin.
    { destruct (decide (l ∈ os)) as [|n]; [done|].
      by apply indexOf_absent in n. }
    apply count_present in Hin. repeat case_decide; subst; lia.
Qed.

(** C8.  For every listener l: a change of the collection calls the
    update of l as many times as l is registered, each time with the new
    collection; attach appends one registration of l, whether or not l
    is registered already, and leaves the other listeners' registrations
    alone; detach takes one registration of l away when there is one,
    so that a listener registered once is no longer notified; and detach
    of a listener that is not registered changes nothing (it returns
    normally, as every run does). *)
Theorem notifications_follow_registrations
    (l : TaskObserver) (ts : list Task) (w : World) :
  updatesTo l (callsOf (TaskSubject.setTasks ts) w)
  = replicate (registrations l w) ts
  ∧ observers (taskSubject (exec (TaskSubject.attach l) w))
    = observers (taskSubject w) ++ [l]
  ∧ registrations l (exec (TaskSubject.attach l) w) = S (registrations l w)
  ∧ registrations l (exec (TaskSubject.attach l) (exec (TaskSubject.attach l) w))
    = S (S (registrations l w))
  ∧ (∀ o, o ≠ l →
       registrations o (exec (TaskSubject.attach l) w) = registrations o w)
  ∧ registrations l (exec (TaskSubject.detach l) w)
    = (registrations l w - 1)%nat
  ∧ (∀ o, o ≠ l →
       registrations o (exec (TaskSubject.detach l) w) = registrations o w)
  ∧ (registrations l w = 1%nat →
       updatesTo l (callsOf (TaskSubject.setTasks ts)
                      (exec (TaskSubject.detach l) w)) = [])
  ∧ (registrations l w = 0%nat → exec (TaskSubject.detach l) w = w).
Proof.
  assert (Hset : ∀ w0, updatesTo l (callsOf (TaskSubject.setTasks ts) w0)
                       = replicate (registrations l w0) ts).
  { intros w0. unfold callsOf, exec. rewrite setTasks_run. cbn.
    rewrite drop_app_length. apply updatesTo_notifications. }
  assert (Hdet : ∀ o, registrations o (exec (TaskSubject.detach l) w)
                 = (registrations o w - (if decide (l = o) then 1 else 0))%nat).
  { intros o. unfold registrations, exec, TaskSubject.detach. cbn.
    unfold mbind, M_bind. cbn.
    destruct (Z.eqb_spec (indexOf l (observers (taskSubject w))) (-1))
      as [E|N]; cbn.
    - apply indexOf_absent in E. case_decide; [subst|lia].
      rewrite count_absent by done. lia.
    - by apply count_splice_indexOf. }
  split; [apply Hset|].
  split; [reflexivity|].
  assert (Hatt : ∀ o w0, registrations o (exec (TaskSubject.attach l) w0)
                 = (registrations o w0 + (if decide (l = o) then 1 else 0))%nat).
  { intros o w0. unfold registrations.
    change (observers (taskSubject (exec (TaskSubject.attach l) w0)))
      with (observers (taskSubject w0) ++ [l]).
    rewrite count_app, count_cons.
    replace (count o []) with 0%nat by reflexivity. case_decide; lia. }
  split; [rewrite Hatt, decide_True by done; lia|].
  split; [rewrite !Hatt, decide_True by done; lia|].
  split; [intros o No; rewrite Hatt, decide_False by done; lia|].
  split; [rewrite Hdet; by rewrite decide_True|].
  split; [intros o No; rewrite Hdet; rewrite decide_False by done; lia|].
  split.
  - intros H1. rewrite Hset, Hdet, decide_True, H1 by done. reflexivity.
  - intros H0. unfold exec, TaskSubject.detach. cbn. unfold mbind, M_bind. cbn.
    destruct (Z.eqb_spec (indexOf l (observers (taskSubject w))) (-1))
      as [E|N]; cbn; [done|].
    exfalso. assert (l ∈ observers (taskSubject w)) as Hin.
    { destruct (decide (l ∈ observers (taskSubject w))) as [|n]; [done|].
      by apply indexOf_absent in n. }
    apply count_present in Hin. unfold registrations in H0. lia.
Qed.

End Observers.

(** Attached twice, called twice; detached once, called once; detached
    again, silent; detached a third time, nothing changes. *)
Example attach_twice_detach_thrice :
  let w2 := exec (TaskSubject.attach 5%nat;; TaskSubject.attach 9%nat;;
                  TaskSubject.attach 5%nat) (worldWith []) in
  let w1 := exec (TaskSubject.detach 5%nat) w2 in
  let w0 := exec (TaskSubject.detach 5%nat) w1 in
  observers (taskSubject w2) = [5; 9; 5]%nat
  ∧ updatesTo 5%nat (callsOf (TaskSubject.setTasks [milk]) w2) = [[milk]; [milk]]
  ∧ observers (taskSubject w1) = [9; 5]%nat
  ∧ updatesTo 5%nat (callsOf (TaskSubject.setTasks [milk]) w1) = [[milk]]
  ∧ observers (taskSubject w0) = [9]%nat
  ∧ updatesTo 5%nat (callsOf (TaskSubject.setTasks [milk]) w0) = []
  ∧ exec (TaskSubject.detach 5%nat) w0 = w0.
Proof. repeat split. Qed.

(* ===================================================================== *)
(** * The invariant of the timestamps *)
(* ===================================================================== *)

Section Timestamps.
Context `{Environment}.

Lemma changeTaskState_no_handler (task : Task) (s : TaskState) (w : World) :
  s ∉ TaskState.members →
  TaskService.changeTaskState task s w = (task, w).
Proof.
  intros N. unfold TaskService.changeTaskState, TaskService._getHandlerForState.
  repeat case_decide; subst; try done;
    exfalso; apply N; vm_compute; set_solver.
Qed.

Lemma Forall_restamp (P : Task → Prop) task k l :
  Forall P l →
  (∀ j : nat, (k ≤ j)%nat → P (stamped task (DateAt (now j)))) →
  Forall P (restamp task k l).
Proof.
  intros Hl. revert k. induction Hl as [|t l Ht Hl IH]; intros k Hk; cbn.
  - constructor.
  - case_decide.
    + constructor; [by apply Hk|]. apply IH. intros j Hj. apply Hk. lia.
    + constructor; [done|]. by apply IH.
Qed.

Lemma updateTask_keeps_invariant (task : Task) (w w0 : World) :
  monotone →
  (dates w0 ≤ dates w)%nat →
  Date.le (createdAt task) (DateAt (now (dates w0))) →
  Forall createdBeforeUpdated (tasks (taskSubject w)) →
  Forall createdBeforeUpdated
    (tasks (taskSubject (exec (TaskService.updateTask task) w))).
Proof.
  intros Hm Hd Hc Hinv. unfold exec. rewrite updateTask_run. cbn.
  apply Forall_restamp; [done|]. intros j Hj.
  unfold createdBeforeUpdated. cbn.
  apply (le_now_monotone _ (dates w0)); [done|lia|done].
Qed.

Lemma serve_keeps_invariant (r : Request) (w : World) :
  monotone → timely r w →
  Forall createdBeforeUpdated (tasks (taskSubject w)) →
  Forall createdBeforeUpdated (tasks (taskSubject (exec (serve r) w))).
Proof.
  intros Hm Ht Hinv. destruct r as [[t d p|task|i|task s]|o|o]; cbn in Ht.
  - unfold exec, serve, perform, mbind, M_bind. rewrite createTask_run. cbn.
    apply Forall_app. split; [done|]. repeat constructor.
    unfold createdBeforeUpdated. cbn. lia.
  - by apply (updateTask_keeps_invariant task w w); auto.
  - unfold exec, serve, perform. rewrite deleteTask_run. cbn.
    unfold others. rewrite Forall_forall in *. intros x Hx.
    apply list_elem_of_filter in Hx as [_ Hx]. by apply Hinv.
  - unfold exec, serve, perform, mbind, M_bind.
    destruct (decide (s ∈ TaskState.members)) as [Hs|Hs].
    + rewrite changeTaskState_run by done. cbn.
      apply (updateTask_keeps_invariant _ (later 1 w) w); auto.
      cbn. lia.
    + by rewrite changeTaskState_no_handler.
  - done.
  - unfold exec, serve, TaskService.detachObserver, TaskSubject.detach.
    cbn. unfold mbind, M_bind. cbn.
    by destruct (negb _).
Qed.

(** C6 (as amended).  With a clock that does not run backwards, every
    task held by the store has updatedAt >= createdAt in every world
    reached from a world where this holds (an empty store, or one filled
    by createTask, which sets both to the same reading) by createTask,
    deleteTask, attach and detach, and by those updateTask and
    changeTaskState calls whose argument carries a createdAt that is
    not ahead of the clock at the time of the call. *)
Theorem updatedAt_not_before_createdAt (rs : list Request) (w : World) :
  monotone →
  Forall createdBeforeUpdated (tasks (taskSubject w)) →
  allTimely rs w →
  Forall createdBeforeUpdated (tasks (taskSubject (run rs w))).
Proof.
  intros Hm. revert w. induction rs as [|r rs IH]; intros w Hinv Ht; [done|].
  destruct Ht as [Hr Hrs]. cbn [run]. apply IH; [|done].
  by apply serve_keeps_invariant.
Qed.

End Timestamps.

Section TimestampsExamples.
Local Existing Instance steadyEnvironment.

Lemma updatedAt_not_before_createdAt_witness :
  monotone
  ∧ Forall createdBeforeUpdated (tasks (taskSubject (worldWith [1%nat])))
  ∧ allTimely [Mutate (CreateTask "Buy milk" EmptyString TaskPriority.LOW);
               Mutate (ChangeTaskState milk TaskState.IN_PROGRESS);
               Mutate (UpdateTask oatMilk)] (worldWith [1%nat])
  ∧ Forall createdBeforeUpdated
      (tasks (taskSubject
                (run [Mutate (CreateTask "Buy milk" EmptyString TaskPriority.LOW);
                      Mutate (ChangeTaskState milk TaskState.IN_PROGRESS);
                      Mutate (UpdateTask oatMilk)] (worldWith [1%nat])))).
Proof.
  split; [exact steadyEnvironment_monotone|].
  split; [constructor|].
  split; [vm_compute; repeat split; discriminate|].
  apply (updatedAt_not_before_createdAt _ (worldWith [1%nat])).
  - exact steadyEnvironment_monotone.
  - constructor.
  - vm_compute. repeat split; discriminate.
Defined.

(** C6, as it is worded, fails: updateTask stores the createdAt of its
    argument.  After createTask at time 0, an update at time 1000 with a
    task whose createdAt is 5000 leaves the store holding a task created
    after it was last updated, although the clock is monotone. *)
Lemma updateTask_can_postdate_createdAt :
  let w := run [Mutate (CreateTask "Buy milk" EmptyString TaskPriority.LOW);
                Mutate (UpdateTask postdatedMilk)] (worldWith [1%nat]) in
  monotone
  ∧ tasks (taskSubject w) = [stamped postdatedMilk (DateAt 1000)]
  ∧ ¬ Forall createdBeforeUpdated (tasks (taskSubject w)).
Proof.
  cbn zeta. split; [exact steadyEnvironment_monotone|].
  split; [reflexivity|].
  intros F. apply Forall_cons in F as [F _]. vm_compute in F. by apply F.
Qed.

End TimestampsExamples.

(* ===================================================================== *)
(** * Dates survive [toISOString] followed by [Date.parse] *)
(* ===================================================================== *)

(** The strings and time values below are those a JavaScript engine gives. *)

Example toISOString_epoch :
  Date.toISOString (DateAt 0) = Some "1970-01-01T00:00:00.000Z"%string.
Proof. reflexivity. Qed.

Example toISOString_2023 :
  Date.toISOString (DateAt 1700000000000) = Some "2023-11-14T22:13:20.000Z"%string.
Proof. reflexivity. Qed.

Example toISOString_before_epoch :
  Date.toISOString (DateAt (-1)) = Some "1969-12-31T23:59:59.999Z"%string.
Proof. reflexivity. Qed.

Example toISOString_max :
  Date.toISOString (DateAt 8640000000000000) = Some "+275760-09-13T00:00:00.000Z"%string.
Proof. reflexivity. Qed.

Example toISOString_min :
  Date.toISOString (DateAt (-8640000000000000)) = Some "-271821-04-20T00:00:00.000Z"%string.
Proof. reflexivity. Qed.

Example toISOString_year0 :
  Date.toISOString (DateAt (-62167219200000)) = Some "0000-01-01T00:00:00.000Z"%string.
Proof. reflexivity. Qed.

Example toISOString_bc :
  Date.toISOString (DateAt (-62167219200001)) = Some "-000001-12-31T23:59:59.999Z"%string.
Proof. reflexivity. Qed.

Example toISOString_leap :
  Date.toISOString (DateAt 1709164800000) = Some "2024-02-29T00:00:00.000Z"%string.
Proof. reflexivity. Qed.

Example parse_2023 :
  Date.parse "2023-11-14T22:13:20.000Z" = DateAt 1700000000000.
Proof. reflexivity. Qed.

Example parse_max :
  Date.parse "+275760-09-13T00:00:00.000Z" = DateAt 8640000000000000.
Proof. reflexivity. Qed.

Example parse_bc :
  Date.parse "-000001-12-31T23:59:59.999Z" = DateAt (-62167219200001).
Proof. reflexivity. Qed.

Example parse_garbage : Date.parse "garbage" = InvalidDate.
Proof. reflexivity. Qed.

Section StringFacts.

Lemma append_cons (x : ascii) (a b : string) :
  String x a +:+ b = String x (a +:+ b).
Proof. reflexivity. Qed.

Lemma append_nil_l (b : string) : EmptyString +:+ b = b.
Proof. reflexivity. Qed.

Lemma append_assoc (a b c : string) : (a +:+ b) +:+ c = a +:+ (b +:+ c).
Proof.
  induction a as [|x a IH]; [done|]. rewrite !append_cons. by f_equal.
Qed.

Lemma append_nil_r (a : string) : a +:+ EmptyString = a.
Proof.
  induction a as [|x a IH]; [done|]. rewrite append_cons. by f_equal.
Qed.

Lemma length_append (a b : string) :
  String.length (a +:+ b) = (String.length a + String.length b)%nat.
Proof.
  induction a as [|x a IH]; [done|]. rewrite append_cons. cbn. by f_equal.
Qed.

End StringFacts.

Section DigitsFacts.

Lemma value_digit (d : Z) : 0 <= d <= 9 → Digits.value (Digits.digit d) = Some d.
Proof.
  intros Hd.
  assert (d = 0 ∨ d = 1 ∨ d = 2 ∨ d = 3 ∨ d = 4 ∨ d = 5 ∨ d = 6 ∨ d = 7
          ∨ d = 8 ∨ d = 9) as Hc by lia.
  repeat destruct Hc as [->|Hc]; try reflexivity. by subst.
Qed.

Lemma read_pad_more (w k : nat) (n acc : Z) (rest : string) :
  0 <= n < 10 ^ Z.of_nat w →
  Digits.read (w + k) acc (Digits.pad w n +:+ rest)
  = Digits.read k (acc * 10 ^ Z.of_nat w + n) rest.
Proof.
  revert n acc k rest. induction w as [|w IH]; intros n acc k rest Hn.
  - cbn in *. f_equal. lia.
  - cbn [Digits.pad]. rewrite append_assoc, append_cons, append_nil_l.
    replace (S w + k)%nat with (w + S k)%nat by lia.
    rewrite Nat2Z.inj_succ, Z.pow_succ_r in Hn by lia.
    rewrite IH by (Z.div_mod_to_equations; lia).
    cbn [Digits.read]. rewrite value_digit by (Z.div_mod_to_equations; lia).
    f_equal. rewrite Nat2Z.inj_succ, Z.pow_succ_r by lia.
    Z.div_mod_to_equations. lia.
Qed.

Lemma read_pad (w : nat) (n : Z) (rest : string) :
  0 <= n < 10 ^ Z.of_nat w →
  Digits.read w 0 (Digits.pad w n +:+ rest) = Some (n, rest).
Proof.
  intros Hn. pose proof (read_pad_more w 0 n 0 rest Hn) as R.
  rewrite Nat.add_0_r in R. rewrite R. cbn [Digits.read].
  by rewrite Z.mul_0_l, Z.add_0_l.
Qed.

(** A fixed-width field starts with a digit when it is not empty. *)
Lemma pad_starts_with_digit (w : nat) (n : Z) :
  0 <= n →
  ∃ d s, 0 <= d <= 9 ∧ Digits.pad (S w) n = String (Digits.digit d) s.
Proof.
  revert n. induction w as [|w IH]; intros n Hn.
  - exists (n mod 10), EmptyString. split; [Z.div_mod_to_equations; lia|done].
  - destruct (IH (n / 10)) as (d & s & Hd & E); [Z.div_mod_to_equations; lia|].
    change (Digits.pad (S (S w)) n)
      with (Digits.pad (S w) (n / 10)
            +:+ String (Digits.digit (n mod 10)) EmptyString).
    rewrite E, append_cons. eauto.
Qed.

End DigitsFacts.

Section DateFacts.
Import Date.

Lemma YearFromDay_spec (d : Z) :
  DayFromYear (YearFromDay d) <= d < DayFromYear (YearFromDay d + 1).
Proof.
  unfold YearFromDay.
  set (y := 1970 + 400 * d / 146097).
  assert (146097 * (y - 1970) <= 400 * d < 146097 * (y - 1970) + 146097) as Hy.
  { unfold y. Z.div_mod_to_equations. lia. }
  clearbody y.
  destruct (Z.gtb_spec (DayFromYear y) d) as [G|G].
  - replace (y - 1 + 1) with y by lia. split; [|lia].
    unfold DayFromYear in *. Z.div_mod_to_equations. lia.
  - destruct (Z.leb_spec (DayFromYear (y + 1)) d) as [G'|G']; [|lia].
    split; [lia|]. unfold DayFromYear in *. Z.div_mod_to_equations. lia.
Qed.

Lemma DayFromYear_succ (y : Z) :
  DayFromYear (y + 1) = DayFromYear y + (if isLeap y then 366 else 365).
Proof.
  unfold DayFromYear, isLeap.
  destruct (Z.eqb_spec (y mod 4) 0), (Z.eqb_spec (y mod 100) 0),
    (Z.eqb_spec (y mod 400) 0); cbn [negb];
    Z.div_mod_to_equations; lia.
Qed.

Lemma DayWithinYear_range (t : Z) :
  0 <= DayWithinYear t < 365 + InLeapYear t.
Proof.
  unfold DayWithinYear, InLeapYear, YearFromTime.
  pose proof (YearFromDay_spec (Day t)) as [H1 H2].
  rewrite DayFromYear_succ in H2. destruct (isLeap _); lia.
Qed.

Lemma month_and_date (d L : Z) :
  0 <= L <= 1 → 0 <= d < 365 + L →
  0 <= MonthOfDay d L <= 11
  ∧ 1 <= d - MonthStart (MonthOfDay d L) L + 1 <= 31.
Proof.
  intros HL Hd. unfold MonthOfDay.
  repeat (match goal with
          | |- context [?a <? ?b] => destruct (Z.ltb_spec a b)
          end; [cbn; lia|]).
  cbn. lia.
Qed.

Lemma MakeDay_of_fields (t : Z) :
  MakeDay (YearFromTime t) (MonthFromTime t + 1 - 1) (DateFromTime t) = Day t.
Proof.
  pose proof (DayWithinYear_range t) as Hr.
  assert (0 <= InLeapYear t <= 1) as HL
    by (unfold InLeapYear; destruct (isLeap _); lia).
  pose proof (month_and_date _ _ HL Hr) as [Hm _].
  unfold MakeDay, DateFromTime. fold (MonthFromTime t) in Hm.
  replace (MonthFromTime t + 1 - 1) with (MonthFromTime t) by lia.
  replace (MonthFromTime t / 12) with 0 by (Z.div_mod_to_equations; lia).
  replace (MonthFromTime t mod 12) with (MonthFromTime t)
    by (Z.div_mod_to_equations; lia).
  rewrite Z.add_0_r. fold (InLeapYear t). unfold DayWithinYear. lia.
Qed.

Lemma MakeTime_of_fields (t : Z) :
  MakeTime (HourFromTime t) (MinFromTime t) (SecFromTime t) (msFromTime t)
  = TimeWithinDay t.
Proof.
  unfold MakeTime, HourFromTime, MinFromTime, SecFromTime, msFromTime,
    TimeWithinDay, msPerHour, msPerMinute, msPerSecond, msPerDay.
  Z.div_mod_to_equations. lia.
Qed.

Lemma time_fields_range (t : Z) :
  0 <= HourFromTime t <= 23 ∧ 0 <= MinFromTime t <= 59
  ∧ 0 <= SecFromTime t <= 59 ∧ 0 <= msFromTime t <= 999.
Proof.
  unfold HourFromTime, MinFromTime, SecFromTime, msFromTime, msPerSecond.
  repeat split; Z.div_mod_to_equations; lia.
Qed.

Lemma YearFromTime_range (t : Z) :
  inRange t → -271821 <= YearFromTime t <= 275760.
Proof.
  unfold inRange, maxTime, YearFromTime. intros Ht.
  pose proof (YearFromDay_spec (Day t)) as [H1 H2].
  revert H1 H2. generalize (YearFromDay (Day t)). intros y H1 H2.
  unfold Day, msPerDay, DayFromYear in *. Z.div_mod_to_equations. lia.
Qed.

End DateFacts.

Section DateRoundTrip.
Import Date.

Lemma parseYear_digit (c : ascii) (d : Z) (s : string) :
  Digits.value c = Some d →
  parseYear (String c s) = Digits.read 4 0 (String c s).
Proof.
  intros Hv.
  destruct c as [[] [] [] [] [] [] [] []]; try reflexivity;
    vm_compute in Hv; discriminate.
Qed.

Lemma parseYear_formatYear (y : Z) (rest : string) :
  -999999 <= y <= 999999 →
  parseYear (formatYear y +:+ rest) = Some (y, rest).
Proof.
  intros Hy. unfold formatYear.
  destruct (Z.leb_spec 0 y) as [P|N]; cbn [andb].
  - destruct (Z.leb_spec y 9999) as [S4|S6].
    + destruct (pad_starts_with_digit 3 y P) as (d & s & Hd & E).
      pose proof (read_pad 4 y rest ltac:(lia)) as R.
      rewrite E, append_cons in *.
      rewrite (parseYear_digit _ d) by (by apply value_digit). exact R.
    + rewrite append_assoc, append_cons, append_nil_l. cbn [parseYear].
      apply read_pad. lia.
  - rewrite append_assoc, append_cons, append_nil_l. cbn [parseYear].
    rewrite read_pad by lia. cbn.
    destruct (Z.eqb_spec (- y) 0); [lia|]. do 2 f_equal. lia.
Qed.

Lemma expect_cons (c : ascii) (s : string) :
  Digits.expect c (String c s) = Some s.
Proof. unfold Digits.expect. by rewrite decide_True. Qed.

(** Reading back what [toISOString] wrote gives the time value it was
    written from. *)
Lemma parseTime_formatTime (t : Z) :
  inRange t → parseTime (formatTime t) = Some t.
Proof.
  intros Ht. unfold parseTime, formatTime.
  pose proof (YearFromTime_range t Ht) as Hy.
  pose proof (DayWithinYear_range t) as Hr.
  assert (0 <= InLeapYear t <= 1) as HL
    by (unfold InLeapYear; destruct (isLeap _); lia).
  pose proof (month_and_date _ _ HL Hr) as [Hm Hd].
  fold (MonthFromTime t) in Hm, Hd. fold (DateFromTime t) in Hd.
  pose proof (time_fields_range t) as (Hh & Hmi & Hs & Hms).
  rewrite parseYear_formatYear by lia. cbn [mbind option_bind].
  repeat first
    [ rewrite append_cons | rewrite append_nil_l
    | rewrite expect_cons; cbn [mbind option_bind]
    | rewrite read_pad by (cbn; lia); cbn [mbind option_bind] ].
  cbn [negb].
  destruct (Z.leb_spec 1 (MonthFromTime t + 1)); [|lia].
  destruct (Z.leb_spec (MonthFromTime t + 1) 12); [|lia].
  destruct (Z.leb_spec 1 (DateFromTime t)); [|lia].
  destruct (Z.leb_spec (DateFromTime t) 31); [|lia].
  destruct (Z.leb_spec (HourFromTime t) 23); [|lia].
  destruct (Z.leb_spec (MinFromTime t) 59); [|lia].
  destruct (Z.leb_spec (SecFromTime t) 59); [|lia].
  cbn [andb orb negb].
  rewrite MakeDay_of_fields, MakeTime_of_fields.
  unfold MakeDate, Day, TimeWithinDay, msPerDay. f_equal.
  Z.div_mod_to_equations. lia.
Qed.

Lemma parse_toISOString (d : Date) (iso : string) :
  valid d → toISOString d = Some iso → parse iso = d.
Proof.
  destruct d as [t|]; [|done]. cbn. intros Ht [= <-].
  unfold parse. rewrite parseTime_formatTime by done.
  unfold TimeClip. unfold inRange in Ht.
  destruct (Z.leb_spec (- maxTime) t); [|lia].
  destruct (Z.leb_spec t maxTime); [|lia]. done.
Qed.

End DateRoundTrip.

(* ===================================================================== *)
(** * JSON text is read back as the value it was written from *)
(* ===================================================================== *)

(** Text with white space, escapes, numbers and nesting, as [JSON.parse]
    reads it. *)
Example parse_nested :
  JSON.parse (" [ {" +:+ JSON.quote "a" +:+ " : [1.5e3, true, null], "
              +:+ JSON.quote "b/c" +:+ ": " +:+ String JSON.dquote "xA\n"
              +:+ String JSON.dquote "} , [-0] ] ")
  = Some (JArray [JObject [("a", JArray [JNumber "1.5e3"; JBool true; JNull]);
                           ("b/c", JString (String "x" (String "A"
                                      (String (JSON.unit_ 10) EmptyString))))];
                  JArray [JNumber "-0"]]).
Proof. vm_compute. reflexivity. Qed.

Example parse_rejects_trailing_comma : JSON.parse "[1,]" = None.
Proof. reflexivity. Qed.

Example parse_rejects_garbage : JSON.parse "tasks" = None.
Proof. reflexivity. Qed.

Section JSONRoundTrip.
Import JSON.

(** One escaped code unit is read back as that code unit. *)
Lemma parseChars_escape (c : ascii) (tail : string) :
  parseChars (escape c +:+ tail)
  = '(str, r) ← parseChars tail; Some (String c str, r).
Proof. destruct c as [[] [] [] [] [] [] [] []]; reflexivity. Qed.

Lemma parseChars_escapeAll (s rest : string) :
  parseChars (escapeAll s +:+ String dquote rest) = Some (s, rest).
Proof.
  induction s as [|c s IH]; [reflexivity|].
  cbn [escapeAll]. rewrite append_assoc, parseChars_escape, IH. reflexivity.
Qed.

Lemma quote_append (s rest : string) :
  quote s +:+ rest = String dquote (escapeAll s +:+ String dquote rest).
Proof.
  unfold quote. by rewrite append_cons, append_assoc, append_cons, append_nil_l.
Qed.

Lemma parseValue_leaf (v : JSON) (n : nat) (rest : string) :
  leaf v → (1 ≤ n)%nat →
  parseValue n (print v +:+ rest) = Some (v, rest).
Proof.
  intros Hv Hn. destruct n as [|n]; [lia|].
  destruct v; try done.
  cbn [print]. rewrite quote_append. cbn [parseValue].
  rewrite decide_True by done. by rewrite parseChars_escapeAll.
Qed.

(** The text of a leaf starts with a character that is neither white
    space nor a closing bracket. *)
Lemma skipWs_leaf (v : JSON) (rest : string) :
  leaf v → skipWs (print v +:+ rest) = print v +:+ rest.
Proof.
  intros Hv. by destruct v.
Qed.

Lemma skipWs_colon (x : string) : skipWs (String ":" x) = String ":" x.
Proof. reflexivity. Qed.

Lemma skipWs_comma (x : string) : skipWs (String "," x) = String "," x.
Proof. reflexivity. Qed.

Lemma skipWs_brace (x : string) : skipWs (String "}" x) = String "}" x.
Proof. reflexivity. Qed.

Lemma skipWs_bracket (x : string) : skipWs (String "]" x) = String "]" x.
Proof. reflexivity. Qed.

Lemma skipWs_members (m : string * JSON) ms (r : string) :
  skipWs (printMembers print (m :: ms) +:+ r)
  = printMembers print (m :: ms) +:+ r.
Proof.
  destruct m as [k v]. destruct ms; cbn [printMembers];
    by rewrite !append_assoc, quote_append.
Qed.

Lemma parseMembers_leaves (ms : list (string * JSON)) (n : nat) (rest : string) :
  ms ≠ [] → Forall (λ m, leaf m.2) ms → (length ms + 1 ≤ n)%nat →
  parseMembers n (printMembers print ms +:+ rest) = Some (ms, rest).
Proof.
  revert n. induction ms as [|[k v] ms IH]; intros n Hne Hl Hn; [done|].
  apply Forall_cons in Hl as [Hv Hl]. cbn in Hv, Hn.
  destruct n as [|n]; [lia|].
  destruct ms as [|m ms].
  - cbn [printMembers]. rewrite !append_assoc, quote_append.
    cbn [parseMembers]. rewrite decide_True by done.
    rewrite parseChars_escapeAll. cbn [mbind option_bind].
    rewrite !append_cons, append_nil_l, skipWs_colon. cbn beta iota.
    rewrite skipWs_leaf, parseValue_leaf by (done || lia).
    cbn [mbind option_bind]. by rewrite skipWs_brace.
  - change (printMembers print ((k, v) :: m :: ms))
      with (quote k +:+ ":" +:+ print v +:+ "," +:+ printMembers print (m :: ms)).
    rewrite !append_assoc, quote_append.
    cbn [parseMembers]. rewrite decide_True by done.
    rewrite parseChars_escapeAll. cbn [mbind option_bind].
    rewrite !append_cons, append_nil_l, skipWs_colon. cbn beta iota.
    rewrite skipWs_leaf, parseValue_leaf by (done || (cbn in Hn; lia)).
    cbn [mbind option_bind]. rewrite skipWs_comma. cbn beta iota.
    rewrite append_nil_l, skipWs_members, IH by (done || (cbn in *; lia)). reflexivity.
Qed.

Lemma parseValue_flat (v : JSON) (n : nat) (rest : string) :
  flat v → (depth v ≤ n)%nat →
  parseValue n (print v +:+ rest) = Some (v, rest).
Proof.
  destruct v as [| | | | |ms]; try done. intros [Hne Hl] Hn. cbn in Hn.
  destruct n as [|n]; [lia|]. destruct ms as [|m ms]; [done|].
  cbn [print]. rewrite append_assoc, append_cons, append_nil_l.
  cbn [parseValue]. rewrite decide_False by done. cbn beta iota.
  rewrite skipWs_members.
  assert (∃ X, printMembers print (m :: ms) +:+ rest = String dquote X)
    as [X E].
  { destruct m as [k v]. destruct ms; cbn [printMembers];
      rewrite !append_assoc, quote_append; eauto. }
  unfold dquote in E. rewrite E. cbn beta iota. rewrite <- E.
  rewrite parseMembers_leaves by (done || (cbn in *; lia)). reflexivity.
Qed.

Lemma skipWs_flat (v : JSON) (rest : string) :
  flat v → ∃ X, print v +:+ rest = String "{" X
                ∧ skipWs (print v +:+ rest) = String "{" X.
Proof.
  destruct v as [| | | | |ms]; try done. intros _.
  cbn [print]. rewrite append_assoc, append_cons, append_nil_l. eauto.
Qed.

Lemma parseElements_flat (l : list JSON) (n : nat) (rest : string) :
  l ≠ [] → Forall flat l → (depths l ≤ n)%nat →
  parseElements n (printElements print l +:+ rest) = Some (l, rest).
Proof.
  revert n. induction l as [|x l IH]; intros n Hne Hl Hn; [done|].
  apply Forall_cons in Hl as [Hx Hl]. cbn [depths] in Hn.
  destruct n as [|n]; [lia|].
  destruct l as [|y l].
  - cbn [printElements]. rewrite append_assoc.
    cbn [parseElements]. rewrite parseValue_flat by (done || lia).
    cbn [mbind option_bind]. by rewrite append_cons, skipWs_bracket.
  - change (printElements print (x :: y :: l))
      with (print x +:+ "," +:+ printElements print (y :: l)).
    rewrite !append_assoc. cbn [parseElements].
    rewrite parseValue_flat by (done || lia). cbn [mbind option_bind].
    rewrite append_cons, append_nil_l, skipWs_comma. cbn beta iota.
    apply Forall_cons in Hl as Hl'. destruct Hl' as [Hy _].
    assert (skipWs (printElements print (y :: l) +:+ rest)
            = printElements print (y :: l) +:+ rest) as ->.
    { destruct l; cbn [printElements]; rewrite ?append_assoc;
        match goal with
        | |- skipWs (print y +:+ ?R) = _ =>
            destruct (skipWs_flat y R Hy) as (X & E1 & E2);
            by rewrite E2, E1
        end. }
    rewrite IH by (done || (cbn [depths] in *; lia)). reflexivity.
Qed.

Lemma length_printMembers (ms : list (string * JSON)) :
  (length ms + 1 ≤ String.length (printMembers print ms))%nat.
Proof.
  induction ms as [|[k v] ms IH]; [cbn; lia|].
  destruct ms as [|m ms].
  - cbn [printMembers]. rewrite !length_append.
    change (String.length ":") with 1%nat.
    change (String.length "}") with 1%nat. cbn [length]. lia.
  - change (printMembers print ((k, v) :: m :: ms))
      with (quote k +:+ ":" +:+ print v +:+ "," +:+ printMembers print (m :: ms)).
    rewrite !length_append. cbn [length] in *.
    change (String.length ":") with 1%nat.
    change (String.length ",") with 1%nat. lia.
Qed.

Lemma length_print_flat (v : JSON) :
  flat v → (depth v ≤ String.length (print v))%nat.
Proof.
  destruct v as [| | | | |ms]; try done. intros _. cbn [print depth].
  rewrite append_cons, append_nil_l. cbn [String.length].
  pose proof (length_printMembers ms). lia.
Qed.

Lemma length_printElements (l : list JSON) :
  Forall flat l → (depths l ≤ String.length (printElements print l))%nat.
Proof.
  induction 1 as [|x l Hx Hl IH]; [cbn; lia|].
  pose proof (length_print_flat x Hx).
  destruct l as [|y l].
  - cbn [printElements depths]. rewrite length_append.
    change (String.length "]") with 1%nat. lia.
  - change (printElements print (x :: y :: l))
      with (print x +:+ "," +:+ printElements print (y :: l)).
    rewrite !length_append. cbn [depths] in *.
    change (String.length ",") with 1%nat. lia.
Qed.

(** An array of flat objects is read back from its text. *)
Lemma parse_print_flat_array (l : list JSON) :
  Forall flat l → parse (print (JArray l)) = Some (JArray l).
Proof.
  intros Hl. unfold parse. cbn [print].
  rewrite append_cons, append_nil_l.
  change (skipWs (String "[" ?x)) with (String "[" x).
  cbn [String.length]. rewrite Nat.mul_succ_r, Nat.add_comm.
  cbn [Nat.add parseValue]. rewrite decide_False by done. cbn beta iota.
  destruct l as [|x l].
  - reflexivity.
  - pose proof (length_printElements _ Hl) as Hlen.
    apply Forall_cons in Hl as Hl'. destruct Hl' as [Hx _].
    assert (∃ X, printElements print (x :: l) = String "{" X
                 ∧ skipWs (printElements print (x :: l)) = String "{" X)
      as (X & E & ->).
    { destruct l; cbn [printElements];
        [rewrite <- (append_nil_r (print x +:+ "]")), append_assoc|];
        match goal with
        | |- ∃ _, print x +:+ ?R = _ ∧ _ =>
            destruct (skipWs_flat x R Hx) as (X & E1 & E2);
            exists X; by rewrite E2, E1
        end. }
    cbn beta iota. rewrite <- E, <- (append_nil_r (printElements _ _)).
    rewrite parseElements_flat by (done || (rewrite append_nil_r; lia)).
    reflexivity.
Qed.

End JSONRoundTrip.

(* ===================================================================== *)
(** * Saving the collection and loading it back *)
(* ===================================================================== *)

Section Persistence.

Lemma Date_toJSON_leaf (d : Date) : leaf (JSON.toJSON d).
Proof. by destruct d. Qed.

Lemma Task_toJSON_flat (t : Task) : flat (JSON.toJSON t).
Proof.
  split; [done|]. repeat constructor; cbn; try done; apply Date_toJSON_leaf.
Qed.

Lemma Date_of_toJSON (d : Date) :
  storable d → Date_of (Some (JSON.toJSON d)) = Some (revived d).
Proof.
  intros [->|Hd]; [done|]. destruct d as [tv|]; [|done].
  cbn. f_equal. by apply parse_toISOString.
Qed.

Lemma rehydrate_toJSON (t : Task) :
  storable (createdAt t) → storable (updatedAt t) →
  TaskService.rehydrate (JSON.toJSON t) = Normal (reloaded t).
Proof.
  intros Hc Hu. unfold TaskService.rehydrate, JSON.toJSON at 1, Task_toJSON.
  change (JSON.get "id" _) with (Some (JString (id t))).
  change (JSON.get "title" _) with (Some (JString (title t))).
  change (JSON.get "description" _) with (Some (JString (description t))).
  change (JSON.get "state" _) with (Some (JString (state t))).
  change (JSON.get "priority" _) with (Some (JString (priority t))).
  change (JSON.get "createdAt" _) with (Some (JSON.toJSON (createdAt t))).
  change (JSON.get "updatedAt" _) with (Some (JSON.toJSON (updatedAt t))).
  rewrite !Date_of_toJSON by done. reflexivity.
Qed.

Lemma rehydrateAll_toJSON (ts : list Task) :
  Forall (λ t, storable (createdAt t) ∧ storable (updatedAt t)) ts →
  TaskService.rehydrateAll (map JSON.toJSON ts) = Normal (map reloaded ts).
Proof.
  induction 1 as [|t ts [Hc Hu] _ IH]; [done|].
  cbn [map TaskService.rehydrateAll]. by rewrite rehydrate_toJSON, IH.
Qed.

Lemma reloaded_valid (t : Task) : validTimestamps t → reloaded t = t.
Proof.
  destruct t as [i ti de st pr c u]. intros [Hc Hu]. cbn in Hc, Hu.
  unfold reloaded. cbn. by destruct c, u.
Qed.

Lemma parse_stringify (ts : list Task) :
  JSON.parse (JSON.stringify ts) = Some (JArray (map JSON.toJSON ts)).
Proof.
  unfold JSON.stringify, JSON.toJSON at 1, list_toJSON.
  apply parse_print_flat_array. apply Forall_fmap, Forall_forall.
  intros t _. apply Task_toJSON_flat.
Qed.

(** The text that [saveTasks] stores is not empty. *)
Lemma stringify_not_empty (ts : list Task) :
  ∃ X, JSON.stringify ts = String "[" X.
Proof.
  unfold JSON.stringify, JSON.toJSON at 1, list_toJSON. cbn [JSON.print].
  rewrite append_cons, append_nil_l. eauto.
Qed.

(** [loadTasks], run where the item "tasks" holds the text of a
    collection, sets and announces that collection as it is read
    back. *)
Lemma loadTasks_run (ts : list Task) (w : World) :
  Forall (λ t, storable (createdAt t) ∧ storable (updatedAt t)) ts →
  localStorage w !! TaskService.STORAGE_KEY = Some (JSON.stringify ts) →
  TaskService.loadTasks w
  = (Normal tt,
     {| taskSubject := {| observers := observers (taskSubject w);
                          tasks := map reloaded ts |};
        localStorage := localStorage w;
        dates := dates w; uuids := uuids w;
        calls := (calls w ++ [GetItem TaskService.STORAGE_KEY])
                 ++ notifications (observers (taskSubject w))
                      (map reloaded ts) |}).
Proof.
  intros Hts Hitem. unfold TaskService.loadTasks.
  unfold mbind at 1, M_bind at 1. cbn [getItem TaskService.storageAdapter
    LocalStorageAdapter]. unfold mbind at 1, M_bind at 1. cbn [record modify gets].
  cbn [localStorage]. rewrite Hitem.
  destruct (stringify_not_empty ts) as [X E]. rewrite E. cbn beta iota.
  rewrite <- E, parse_stringify, rehydrateAll_toJSON by done.
  unfold mbind, M_bind. rewrite setTasks_run. reflexivity.
Qed.

(** C7 (as amended).  For every task collection whose createdAt and
    updatedAt are all valid dates: saveTasks stores the collection as
    one text under the key "tasks" and touches no other key, and
    loadTasks, run on that storage directly or by the constructor of a
    new service, returns normally and leaves the store holding a
    collection equal to the saved one, task by task and field by field:
    same id, title, description, state and priority, and createdAt and
    updatedAt with the same time values, read back from their
    ISO-8601 strings. *)
Theorem saved_collection_loads_back (w : World) :
  Forall validTimestamps (tasks (taskSubject w)) →
  let ts := tasks (taskSubject w) in
  let w1 := exec TaskService.saveTasks w in
  localStorage w1 !! "tasks" = Some (JSON.stringify ts)
  ∧ (∀ key : string, key ≠ "tasks" → localStorage w1 !! key = localStorage w !! key)
  ∧ JSON.parse (JSON.stringify ts) = Some (JSON.toJSON ts)
  ∧ eval TaskService.loadTasks w1 = Normal tt
  ∧ tasks (taskSubject (exec TaskService.loadTasks w1)) = ts
  ∧ eval TaskService.constructor w1 = Normal tt
  ∧ tasks (taskSubject (exec TaskService.constructor w1)) = ts.
Proof.
  intros Hv. cbn zeta.
  assert (Hs : Forall (λ t, storable (createdAt t) ∧ storable (updatedAt t))
                 (tasks (taskSubject w))).
  { eapply Forall_impl; [exact Hv|]. intros t [Hc Hu]. split; by right. }
  assert (Hr : map reloaded (tasks (taskSubject w)) = tasks (taskSubject w)).
  { clear Hs. induction Hv as [|t ts Ht _ IH]; [done|].
    cbn. by rewrite reloaded_valid, IH. }
  unfold exec at 1 2 3 5 7. rewrite saveTasks_run. cbn [snd localStorage].
  split; [apply lookup_insert_eq|].
  split; [intros key Hk; by apply lookup_insert_ne|].
  split; [apply parse_stringify|].
  unfold eval, exec, TaskService.constructor.
  unfold mbind at 1 2, M_bind at 1 2. cbn [modify].
  rewrite !(loadTasks_run (tasks (taskSubject w)))
    by (done || apply lookup_insert_eq).
  cbn. by rewrite Hr.
Qed.

End Persistence.

Lemma saved_collection_loads_back_witness :
  Forall validTimestamps (tasks (taskSubject worldWithMilk))
  ∧ tasks (taskSubject (exec TaskService.constructor
                          (exec TaskService.saveTasks worldWithMilk)))
    = tasks (taskSubject worldWithMilk).
Proof.
  split; [repeat constructor; vm_compute; intuition discriminate|].
  apply (saved_collection_loads_back worldWithMilk).
  repeat constructor; vm_compute; intuition discriminate.
Defined.

(** What is stored for the collection that holds [milk], and what is read
    back from it. *)
Example saved_text_of_milk :
  JSON.stringify [milk]
  = ("[{" +:+ JSON.quote "id" +:+ ":" +:+ JSON.quote "task-" +:+ ","
          +:+ JSON.quote "title" +:+ ":" +:+ JSON.quote "Buy milk" +:+ ","
          +:+ JSON.quote "description" +:+ ":" +:+ JSON.quote EmptyString +:+ ","
          +:+ JSON.quote "state" +:+ ":" +:+ JSON.quote "NEW" +:+ ","
          +:+ JSON.quote "priority" +:+ ":" +:+ JSON.quote "LOW" +:+ ","
          +:+ JSON.quote "createdAt" +:+ ":"
          +:+ JSON.quote "1970-01-01T00:00:00.000Z" +:+ ","
          +:+ JSON.quote "updatedAt" +:+ ":"
          +:+ JSON.quote "1970-01-01T00:00:00.000Z" +:+ "}]")%string.
Proof. vm_compute. reflexivity. Qed.

(** C7, as it is worded, fails for a collection that holds an invalid
    date: it is saved as [null] and loaded as the epoch, a date with
    another time value (the other fields are read back the same).  The
    collection here is the one the store holds after createTask and an
    updateTask whose argument carries an invalid createdAt. *)
Lemma invalid_date_loads_back_as_epoch :
  let ts := tasks (taskSubject worldWithUndatedMilk) in
  let w1 := exec TaskService.saveTasks worldWithUndatedMilk in
  ts = [stamped undatedMilk (DateAt 1000)]
  ∧ Date.getTime (createdAt (stamped undatedMilk (DateAt 1000))) = None
  ∧ localStorage w1 !! "tasks" = Some (JSON.stringify ts)
  ∧ eval TaskService.constructor w1 = Normal tt
  ∧ tasks (taskSubject (exec TaskService.constructor w1))
    = [reloaded (stamped undatedMilk (DateAt 1000))]
  ∧ Date.getTime (createdAt (reloaded (stamped undatedMilk (DateAt 1000))))
    = Some 0
  ∧ tasks (taskSubject (exec TaskService.constructor w1)) ≠ ts.
Proof. cbn zeta. vm_compute. repeat split. discriminate. Qed.

(* ===================================================================== *)
(** * Loading, constructing, and the one instance *)
(* ===================================================================== *)

Section Loading.

(** [loadTasks] by cases on what the storage holds. *)
Lemma loadTasks_unfold (w : World) :
  TaskService.loadTasks w
  = match localStorage w !! TaskService.STORAGE_KEY with
    | None | Some EmptyString => (Normal tt, asked w)
    | Some text =>
        match JSON.parse text with
        | None => (Throw SyntaxError, asked w)
        | Some (JArray els) =>
            match TaskService.rehydrateAll els with
            | Normal ts =>
                (Normal tt,
                 {| taskSubject := {| observers := observers (taskSubject w);
                                      tasks := ts |};
                    localStorage := localStorage w;
                    dates := dates w; uuids := uuids w;
                    calls := (calls w ++ [GetItem TaskService.STORAGE_KEY])
                             ++ notifications (observers (taskSubject w)) ts |})
            | Throw e => (Throw e, asked w)
            | Untyped => (Untyped, asked w)
            end
        | Some _ => (Throw TypeError, asked w)
        end
    end.
Proof.
  unfold TaskService.loadTasks.
  unfold mbind at 1, M_bind at 1.
  cbn [getItem TaskService.storageAdapter LocalStorageAdapter].
  unfold mbind at 1, M_bind at 1. cbn [record modify gets]. cbn [localStorage].
  fold (asked w).
  destruct (localStorage w !! TaskService.STORAGE_KEY) as [[|c text]|];
    [reflexivity| |reflexivity].
  destruct (JSON.parse (String c text)) as [[|b|lit|str|els|ms]|];
    try reflexivity.
  destruct (TaskService.rehydrateAll els) as [ts|e|]; try reflexivity.
  unfold mbind, M_bind. rewrite setTasks_run. reflexivity.
Qed.

(** Every run of [loadTasks] asks the storage once; then it either stops
    there, or sets and announces a collection it has read. *)
Lemma loadTasks_cases (w : World) :
  (TaskService.loadTasks w = (Normal tt, asked w)
   ∧ (localStorage w !! TaskService.STORAGE_KEY = None
      ∨ localStorage w !! TaskService.STORAGE_KEY = Some EmptyString))
  ∨ (∃ c, failed c ∧ TaskService.loadTasks w = (c, asked w)
          ∧ ∃ text, localStorage w !! TaskService.STORAGE_KEY = Some text
                    ∧ text ≠ EmptyString)
  ∨ (∃ ts, TaskService.loadTasks w
           = (Normal tt,
              {| taskSubject := {| observers := observers (taskSubject w);
                                   tasks := ts |};
                 localStorage := localStorage w;
                 dates := dates w; uuids := uuids w;
                 calls := (calls w ++ [GetItem TaskService.STORAGE_KEY])
                          ++ notifications (observers (taskSubject w)) ts |})
           ∧ ∃ text, localStorage w !! TaskService.STORAGE_KEY = Some text
                     ∧ text ≠ EmptyString).
Proof.
  rewrite loadTasks_unfold.
  destruct (localStorage w !! TaskService.STORAGE_KEY) as [[|c text]|] eqn:E.
  - left. split; [reflexivity|]. by right.
  - assert (∃ t, Some (String c text) = Some t ∧ t ≠ EmptyString) as Ht
      by (by eexists).
    destruct (JSON.parse (String c text)) as [[|b|lit|str|els|ms]|];
      try (right; left; eexists; split; [|split; [reflexivity|exact Ht]]; done).
    destruct (TaskService.rehydrateAll els) as [ts|e|];
      try (right; left; eexists; split; [|split; [reflexivity|exact Ht]]; done).
    right; right. exists ts. split; [reflexivity|exact Ht].
  - left. split; [reflexivity|]. by left.
Qed.

(** X1.  loadTasks over a storage without an item "tasks", or with an
    empty one, returns normally and leaves the collection, the listeners
    and the storage as they are: it only asks the storage once and
    notifies nobody. *)
Theorem loadTasks_without_item_changes_nothing (w : World) :
  localStorage w !! "tasks" = None
  ∨ localStorage w !! "tasks" = Some EmptyString →
  eval TaskService.loadTasks w = Normal tt
  ∧ taskSubject (exec TaskService.loadTasks w) = taskSubject w
  ∧ localStorage (exec TaskService.loadTasks w) = localStorage w
  ∧ callsOf TaskService.loadTasks w = [GetItem "tasks"].
Proof.
  intros Hitem. unfold eval, exec, callsOf, exec.
  change TaskService.STORAGE_KEY with "tasks"%string in *.
  destruct (loadTasks_cases w)
    as [[-> _]|[(c & _ & _ & text & Ht & Hne)|(ts & _ & text & Ht & Hne)]].
  - cbn. by rewrite drop_app_length.
  - exfalso. change TaskService.STORAGE_KEY with "tasks"%string in Ht.
    destruct Hitem; congruence.
  - exfalso. change TaskService.STORAGE_KEY with "tasks"%string in Ht.
    destruct Hitem; congruence.
Qed.

Lemma loadTasks_without_item_changes_nothing_witness :
  (localStorage worldWithEmptyItem !! "tasks" = None
   ∨ localStorage worldWithEmptyItem !! "tasks" = Some EmptyString)
  ∧ eval TaskService.loadTasks worldWithEmptyItem = Normal tt
  ∧ taskSubject (exec TaskService.loadTasks worldWithEmptyItem)
    = taskSubject worldWithEmptyItem
  ∧ localStorage (exec TaskService.loadTasks worldWithEmptyItem)
    = localStorage worldWithEmptyItem
  ∧ callsOf TaskService.loadTasks worldWithEmptyItem = [GetItem "tasks"].
Proof.
  split; [right; reflexivity|].
  apply (loadTasks_without_item_changes_nothing worldWithEmptyItem).
  right. reflexivity.
Defined.


(** The constructor leaves the storage as it finds it. *)
Lemma constructor_keeps_storage (w : World) :
  localStorage (exec TaskService.constructor w) = localStorage w.
Proof.
  unfold exec, TaskService.constructor, mbind, M_bind. cbn [modify].
  match goal with |- context [TaskService.loadTasks ?w0] =>
    destruct (loadTasks_cases w0)
      as [[-> _]|[(c & _ & -> & _)|(ts & -> & _)]] end; done.
Qed.


(** What the constructor answers depends on the storage only. *)
Lemma constructor_eval_storage (w1 w2 : World) :
  localStorage w1 = localStorage w2 →
  eval TaskService.constructor w1 = eval TaskService.constructor w2.
Proof.
  intros E. unfold eval, TaskService.constructor, mbind, M_bind. cbn [modify].
  rewrite !loadTasks_unfold. cbn [localStorage]. rewrite E.
  destruct (localStorage w2 !! TaskService.STORAGE_KEY) as [[|c text]|];
    [reflexivity| |reflexivity].
  destruct (JSON.parse (String c text)) as [[|b|lit|str|els|ms]|];
    try reflexivity.
  by destruct (TaskService.rehydrateAll els).
Qed.

(** X4.  getInstance constructs the service at most once: when an
    instance is set, a call returns it and changes nothing; after a call
    that did not throw the instance is set, so that the storage is not
    read again; and a call whose constructor throws leaves the field
    unset and the storage as it is, so that the next call constructs
    again and throws the same error. *)
Theorem getInstance_constructs_once (p : Process) :
  (instance p = true → getInstance p = (Normal tt, p))
  ∧ ((∀ e, (getInstance p).1 ≠ Throw e) →
     instance (getInstance p).2 = true
     ∧ getInstance (getInstance p).2 = (Normal tt, (getInstance p).2))
  ∧ (∀ e, (getInstance p).1 = Throw e →
     instance (getInstance p).2 = false
     ∧ localStorage (world (getInstance p).2) = localStorage (world p)
     ∧ (getInstance (getInstance p).2).1 = Throw e).
Proof.
  pose proof (constructor_keeps_storage (world p)) as Hs.
  pose proof (constructor_eval_storage
                (exec TaskService.constructor (world p)) (world p) Hs) as He.
  revert Hs He. unfold eval, exec, getInstance.
  destruct (instance p) eqn:Hi; cbn [negb].
  - intros _ _. split; [done|]. split.
    + intros _. cbn. by rewrite Hi.
    + intros e [=].
  - destruct (TaskService.constructor (world p)) as [c w'] eqn:Hc.
    cbn [fst snd]. intros Hs He. split; [done|].
    destruct c as [[]|e'|]; cbn.
    + split; [done|]. intros e [=].
    + split; [intros Hok; by destruct (Hok e')|].
      intros e [= <-]. split; [done|]. split; [done|].
      destruct (TaskService.constructor w') as [c2 w2]. cbn in He. subst c2.
      done.
    + split; [done|]. intros e [=].
Qed.

(** A storage that does not hold JSON makes every call throw, and a
    healthy one is read by the first call only. *)
Example getInstance_twice :
  (getInstance {| instance := false; world := worldWithGarbage |}).1
  = Throw SyntaxError
  ∧ (getInstance
       (getInstance {| instance := false; world := worldWithGarbage |}).2).1
    = Throw SyntaxError
  ∧ calls (world (getInstance
                    (getInstance {| instance := false; world := worldWithMilk |}).2).2)
    = calls worldWithMilk ++ [GetItem "tasks"].
Proof. vm_compute. repeat split. Qed.

End Loading.

(* ===================================================================== *)
(** * Deleting, and the identifiers of the stored tasks *)
(* ===================================================================== *)

Section Identifiers.
Context `{Environment}.

Lemma length_matching_others (i : string) (l : list Task) :
  (length (others i l) + length (matching i l))%nat = length l.
Proof.
  unfold others, matching. induction l as [|t l IH]; [done|].
  rewrite !filter_cons. destruct (decide (id t = i)) as [E|N].
  - rewrite decide_False by (intros N; by apply N). cbn. lia.
  - rewrite decide_True by done. cbn. lia.
Qed.

Lemma others_absent (i : string) (l : list Task) :
  matching i l = [] → others i l = l.
Proof.
  unfold others, matching. induction l as [|t l IH]; [done|].
  rewrite !filter_cons. destruct (decide (id t = i)) as [E|N]; [done|].
  rewrite decide_True by done. intros E. by rewrite IH.
Qed.

Lemma others_others (i : string) (l : list Task) :
  others i (others i l) = others i l.
Proof.
  unfold others. rewrite list_filter_filter. apply list_filter_iff. tauto.
Qed.

(** X5.  After deleteTask(id) no stored task carries id; the collection
    is shorter by the number of tasks that carried it; when no task
    carried it the collection is the same, and is announced and saved all
    the same; and deleting the same id again leaves the collection as the
    first deletion made it. *)
Theorem deleteTask_removes_every_task_of_that_id (taskId : string) (w : World) :
  let ts := tasks (taskSubject w) in
  let w' := exec (TaskService.deleteTask taskId) w in
  let ts' := tasks (taskSubject w') in
  Forall (λ s, id s ≠ taskId) ts'
  ∧ (length ts' + length (matching taskId ts))%nat = length ts
  ∧ (matching taskId ts = [] → ts' = ts)
  ∧ callsOf (TaskService.deleteTask taskId) w
    = notifications (observers (taskSubject w)) ts'
      ++ [SetItem "tasks" (JSON.stringify ts')]
  ∧ tasks (taskSubject (exec (TaskService.deleteTask taskId) w')) = ts'.
Proof.
  cbn zeta. unfold exec, callsOf, exec. rewrite !deleteTask_run. cbn.
  split; [|split; [|split; [|split]]].
  - apply Forall_forall. intros s Hs.
    by apply list_elem_of_filter in Hs as [Hs _].
  - apply length_matching_others.
  - apply others_absent.
  - by rewrite drop_app_length.
  - apply others_others.
Qed.

Lemma map_id_restamp task k l : map id (restamp task k l) = map id l.
Proof.
  revert k. induction l as [|t l IH]; intros k; [done|].
  cbn. case_decide as E; cbn; rewrite IH; [by rewrite E|done].
Qed.

Lemma changeTaskState_tasks (task : Task) (s : TaskState) (w : World) :
  tasks (taskSubject (exec (TaskService.changeTaskState task s) w))
  = tasks (taskSubject w)
  ∨ ∃ task' k, id task' = id task ∧ createdAt task' = createdAt task
      ∧ (dates w ≤ k)%nat
      ∧ exec (TaskService.changeTaskState task s) w
        = published (restamp task' k (tasks (taskSubject w)))
            (later (length (matching (id task') (tasks (taskSubject w))))
               (later 1 w)).
Proof.
  destruct (decide (s ∈ TaskState.members)) as [Hs|Hs].
  - right. unfold exec. rewrite changeTaskState_run by done. cbn zeta.
    cbn [snd]. unfold exec. rewrite updateTask_run.
    exists (assigned task s (DateAt (now (dates w)))), (S (dates w)).
    split; [done|]. split; [done|]. split; [lia|]. reflexivity.
  - left. unfold exec. by rewrite changeTaskState_no_handler.
Qed.

(** X6.  updateTask and changeTaskState (whatever the target state)
    never change an identifier, add one or drop one: the sequence of the
    identifiers of the stored tasks is the same after the call as
    before. *)
Theorem update_and_state_change_keep_the_identifiers
    (task : Task) (newState : TaskState) (w : World) :
  map id (tasks (taskSubject (exec (TaskService.updateTask task) w)))
  = map id (tasks (taskSubject w))
  ∧ map id (tasks (taskSubject
                     (exec (TaskService.changeTaskState task newState) w)))
    = map id (tasks (taskSubject w)).
Proof.
  split.
  - unfold exec. rewrite updateTask_run. cbn. apply map_id_restamp.
  - destruct (changeTaskState_tasks task newState w)
      as [->|(task' & k & _ & _ & _ & ->)]; [done|].
    cbn. apply map_id_restamp.
Qed.

Lemma issued_mono (w w' : World) (i : string) :
  (uuids w ≤ uuids w')%nat → i ∈ issued w → i ∈ issued w'.
Proof.
  intros Hle. rewrite !issued_lt. intros (k & Hk & ->). exists k.
  split; [lia|done].
Qed.

Lemma identified_same_ids (w w' : World) :
  map id (tasks (taskSubject w')) = map id (tasks (taskSubject w)) →
  (uuids w ≤ uuids w')%nat →
  identified w → identified w'.
Proof.
  intros Hids Hu [Hnd Hiss]. split; [by rewrite Hids|].
  apply Forall_forall. intros s Hs.
  assert (id s ∈ map id (tasks (taskSubject w'))) as Hin
    by (apply list_elem_of_fmap; eauto).
  rewrite Hids in Hin. apply list_elem_of_fmap in Hin as (s0 & E & Hin).
  rewrite Forall_forall in Hiss. rewrite E.
  eapply issued_mono; [exact Hu|]. by apply Hiss.
Qed.

Lemma serve_keeps_identified (r : Request) (w : World) :
  unique → identified w → identified (exec (serve r) w).
Proof.
  intros Hu Hw. destruct r as [[t d p|task|i|task s]|o|o].
  - destruct Hw as [Hnd Hiss].
    unfold exec, serve, perform, mbind, M_bind. rewrite createTask_run.
    cbn [fst snd mret M_ret]. unfold identified, published.
    cbn [taskSubject tasks]. split.
    + rewrite map_app. apply NoDup_app. split; [done|]. split.
      * intros x Hx [->|Hin%elem_of_nil]%elem_of_cons; [|done].
        apply list_elem_of_fmap in Hx as (s & Hs & Hin).
        rewrite Forall_forall in Hiss. apply Hiss, issued_lt in Hin
          as (k & Hk & Hid). rewrite Hid in Hs. apply Hu in Hs. lia.
      * apply NoDup_singleton.
    + apply Forall_app. split.
      * eapply Forall_impl; [exact Hiss|]. intros s Hs.
        eapply (issued_mono w); [cbn; lia|exact Hs].
      * apply Forall_singleton. apply issued_lt. exists (uuids w).
        cbn. split; [lia|done].
  - unfold serve, perform.
    apply (identified_same_ids w); [| |done]; unfold exec;
      rewrite updateTask_run; cbn; [apply map_id_restamp|lia].
  - destruct Hw as [Hnd Hiss].
    unfold exec, serve, perform. rewrite deleteTask_run. cbn. split.
    + apply (sublist_NoDup _ (map id (tasks (taskSubject w)))); [exact Hnd|].
      cbn. apply (fmap_sublist id). apply sublist_filter.
    + apply Forall_forall. intros s Hs.
      apply list_elem_of_filter in Hs as [_ Hs].
      rewrite Forall_forall in Hiss. by apply Hiss.
  - unfold serve, perform, exec, mbind, M_bind.
    destruct (TaskService.changeTaskState task s w) as [t' w'] eqn:E. cbn.
    assert (w' = exec (TaskService.changeTaskState task s) w) as ->
      by (unfold exec; by rewrite E).
    destruct (changeTaskState_tasks task s w)
      as [Hsame|(task' & k & _ & _ & _ & Hrun)].
    + destruct (decide (s ∈ TaskState.members)) as [Hs|Hs].
      * apply (identified_same_ids w); [by rewrite Hsame| |done].
        unfold exec. rewrite changeTaskState_run by done. cbn.
        unfold exec. rewrite updateTask_run. cbn. lia.
      * unfold exec. by rewrite changeTaskState_no_handler.
    + apply (identified_same_ids w); [| |done]; rewrite Hrun; cbn;
        [apply map_id_restamp|lia].
  - done.
  - unfold exec, serve, TaskService.detachObserver, TaskSubject.detach.
    cbn. unfold mbind, M_bind. cbn. by destruct (negb _).
Qed.

(** X7.  With a generator that never repeats itself, the identifiers of
    the stored tasks are pairwise distinct, and all stem from the
    generator, in every world reached by any sequence of requests from a
    world where this holds (an empty store, for one). *)
Theorem identifiers_stay_distinct (rs : list Request) (w : World) :
  unique → identified w → identified (run rs w).
Proof.
  intros Hu. revert w. induction rs as [|r rs IH]; intros w Hw; [done|].
  cbn [run]. apply IH. by apply serve_keeps_identified.
Qed.

(** X8.  A target state that is not a member of the enumeration has no
    handler: changeTaskState then leaves its argument and the whole world
    as they are (no assignment, no reading of the clock, no notification,
    no setItem), and the two queries answer none for a task in such a
    state. *)
Theorem changeTaskState_ignores_unknown_states
    (task : Task) (newState : TaskState) (w : World) :
  newState ∉ TaskState.members →
  TaskService.changeTaskState task newState w = (task, w)
  ∧ callsOf (TaskService.changeTaskState task newState) w = []
  ∧ (state task = newState →
     eval (TaskService.getPossibleNextState task) w = None
     ∧ eval (TaskService.getPossiblePreviousState task) w = None).
Proof.
  intros Hs. split; [by apply changeTaskState_no_handler|]. split.
  - unfold callsOf, exec. rewrite changeTaskState_no_handler by done.
    cbn. by rewrite drop_all.
  - intros E. subst newState.
    unfold eval, TaskService.getPossibleNextState,
      TaskService.getPossiblePreviousState, TaskService._getHandlerForState.
    cbn. repeat case_decide; subst; try done;
      exfalso; apply Hs; vm_compute; set_solver.
Qed.

End Identifiers.

Section IdentifiersExamples.
Local Existing Instance steadyEnvironment.

Lemma ARCHIVED_no_member : "ARCHIVED"%string ∉ TaskState.members.
Proof.
  intros Hin. unfold TaskState.members in Hin.
  repeat (apply elem_of_cons in Hin as [Hin|Hin]; [discriminate Hin|]).
  by apply elem_of_nil in Hin.
Qed.

Lemma identifiers_stay_distinct_witness :
  unique
  ∧ identified (worldWith [1%nat])
  ∧ identified
      (run [Mutate (CreateTask "Buy milk" EmptyString TaskPriority.LOW);
            Mutate (CreateTask "Call mum" EmptyString TaskPriority.HIGH);
            Mutate (UpdateTask oatMilk);
            Mutate (DeleteTask "task-i");
            Mutate (CreateTask "Call mum" EmptyString TaskPriority.HIGH)]
         (worldWith [1%nat])).
Proof.
  split; [exact steadyEnvironment_unique|].
  split; [split; constructor|].
  apply (identifiers_stay_distinct _ (worldWith [1%nat])).
  - exact steadyEnvironment_unique.
  - split; constructor.
Defined.

Lemma changeTaskState_ignores_unknown_states_witness :
  ("ARCHIVED"%string ∉ TaskState.members)
  ∧ TaskService.changeTaskState milk "ARCHIVED" worldWithMilk
    = (milk, worldWithMilk).
Proof.
  split; [apply ARCHIVED_no_member|].
  apply (changeTaskState_ignores_unknown_states milk "ARCHIVED" worldWithMilk).
  apply ARCHIVED_no_member.
Defined.

End IdentifiersExamples.

(* ===================================================================== *)
(** * The storage, and a restart *)
(* ===================================================================== *)

Section Storage.
Context `{Environment}.

Lemma serve_cases (r : Request) (w : World) :
  (∃ ts w0, exec (serve r) w = published ts w0
            ∧ observers (taskSubject w0) = observers (taskSubject w)
            ∧ localStorage w0 = localStorage w
            ∧ calls w0 = calls w)
  ∨ (tasks (taskSubject (exec (serve r) w)) = tasks (taskSubject w)
     ∧ localStorage (exec (serve r) w) = localStorage w
     ∧ calls (exec (serve r) w) = calls w).
Proof.
  destruct r as [op|o|o].
  - assert (inEnumeration op → ∃ ts w0, exec (serve (Mutate op)) w = published ts w0
            ∧ observers (taskSubject w0) = observers (taskSubject w)
            ∧ localStorage w0 = localStorage w
            ∧ calls w0 = calls w) as Hin.
    { intros Hop.
      destruct (perform_publishes op w Hop) as (ts & w0 & E & Hs & Hl & Hc).
      exists ts, w0. by rewrite Hs. }
    destruct op as [t d p|task|i|task s]; try (left; by apply Hin).
    destruct (decide (s ∈ TaskState.members)) as [Hs|Hs]; [left; by apply Hin|].
    right. unfold serve, perform, exec, mbind, M_bind.
    by rewrite changeTaskState_no_handler.
  - right. done.
  - right. unfold exec, serve, TaskService.detachObserver, TaskSubject.detach.
    cbn. unfold mbind, M_bind. cbn. by destruct (negb _).
Qed.

Lemma serve_keeps_stored (r : Request) (w : World) :
  stored w → stored (exec (serve r) w).
Proof.
  intros Hw.
  destruct (serve_cases r w) as [(ts & w0 & -> & _)|(Ht & Hl & _)].
  - right. cbn. apply lookup_insert_eq.
  - unfold stored. rewrite Ht, Hl. exact Hw.
Qed.

Lemma serve_other_keys (r : Request) (w : World) (key : string) :
  key ≠ TaskService.STORAGE_KEY →
  localStorage (exec (serve r) w) !! key = localStorage w !! key.
Proof.
  intros Hk.
  destruct (serve_cases r w) as [(ts & w0 & -> & _ & Hl & _)|(_ & -> & _)];
    [|done].
  cbn. rewrite lookup_insert_ne by done. by rewrite Hl.
Qed.

Lemma serve_calls (r : Request) (w : World) :
  ∃ cs, calls (exec (serve r) w) = calls w ++ cs ∧ Forall announcement cs.
Proof.
  destruct (serve_cases r w) as [(ts & w0 & -> & _ & _ & Hc)|(_ & _ & ->)].
  - eexists. cbn. rewrite Hc. split; [reflexivity|].
    apply Forall_app. split; [|by repeat constructor].
    apply Forall_fmap, Forall_forall. done.
  - exists []. by rewrite app_nil_r.
Qed.

(** X9.  Once the item "tasks" is the serialized collection (or nothing
    was saved yet and the collection is empty), it stays so whatever
    requests are served: after each of them the storage holds under
    "tasks" the text of the collection the store holds; and no request
    ever changes another key of the storage. *)
Theorem storage_mirrors_the_collection (rs : list Request) (w : World) :
  stored w →
  stored (run rs w)
  ∧ ∀ key : string, key ≠ "tasks" →
      localStorage (run rs w) !! key = localStorage w !! key.
Proof.
  revert w. induction rs as [|r rs IH]; intros w Hw; [done|].
  cbn [run]. destruct (IH (exec (serve r) w)) as [Hs Hk];
    [by apply serve_keeps_stored|].
  split; [done|]. intros key Hkey. rewrite Hk by done.
  by apply serve_other_keys.
Qed.

(** X10.  Serving requests never reads the storage and never removes an
    item: whatever the requests, the calls they add to the log are
    updates of listeners and setItem calls with the key "tasks". *)
Theorem requests_only_announce_and_save (rs : list Request) (w : World) :
  ∃ cs, calls (run rs w) = calls w ++ cs ∧ Forall announcement cs.
Proof.
  revert w. induction rs as [|r rs IH]; intros w.
  - exists []. by rewrite app_nil_r.
  - cbn [run]. destruct (IH (exec (serve r) w)) as (cs2 & E2 & H2).
    destruct (serve_calls r w) as (cs1 & E1 & H1).
    exists (cs1 ++ cs2). rewrite E2, E1, app_assoc.
    split; [done|]. by apply Forall_app.
Qed.

End Storage.


Section Restart.
Context `{Environment}.

Lemma run_invariant (P : World → Prop) (Q : Request → Prop)
    (rs : list Request) (w : World) :
  (∀ r w0, Q r → P w0 → P (exec (serve r) w0)) →
  Forall Q rs → P w → P (run rs w).
Proof.
  intros Hstep Hrs. revert w.
  induction Hrs as [|r rs Hr _ IH]; intros w Hw; [done|].
  cbn [run]. apply IH. by apply Hstep.
Qed.

Lemma serve_keeps_valid (r : Request) (w : World) :
  clocked → wellDated r →
  Forall validTimestamps (tasks (taskSubject w)) →
  Forall validTimestamps (tasks (taskSubject (exec (serve r) w))).
Proof.
  intros Hc Hr Hw. destruct r as [[t d p|task|i|task s]|o|o]; cbn in Hr.
  - unfold exec, serve, perform, mbind, M_bind. rewrite createTask_run. cbn.
    apply Forall_app. split; [done|]. apply Forall_singleton.
    split; cbn; apply Hc.
  - unfold exec, serve, perform. rewrite updateTask_run. cbn.
    apply Forall_restamp; [done|]. intros j _. split; cbn; [done|apply Hc].
  - unfold exec, serve, perform. rewrite deleteTask_run. cbn.
    unfold others. rewrite Forall_forall in *. intros x Hx.
    apply list_elem_of_filter in Hx as [_ Hx]. by apply Hw.
  - unfold exec, serve, perform, mbind, M_bind.
    destruct (decide (s ∈ TaskState.members)) as [Hs|Hs].
    + rewrite changeTaskState_run by done. cbn. unfold exec.
      rewrite updateTask_run. cbn.
      apply Forall_restamp; [done|]. intros j _. split; cbn; [done|apply Hc].
    + by rewrite changeTaskState_no_handler.
  - done.
  - unfold exec, serve, TaskService.detachObserver, TaskSubject.detach.
    cbn. unfold mbind, M_bind. cbn. by destruct (negb _).
Qed.

Lemma map_reloaded_valid (ts : list Task) :
  Forall validTimestamps ts → map reloaded ts = ts.
Proof.
  induction 1 as [|t ts Ht _ IH]; [done|]. cbn. by rewrite reloaded_valid, IH.
Qed.

Lemma constructor_restores (w : World) :
  stored w → Forall validTimestamps (tasks (taskSubject w)) →
  TaskService.constructor w
  = (Normal tt,
     {| taskSubject := {| observers := []; tasks := tasks (taskSubject w) |};
        localStorage := localStorage w;
        dates := dates w; uuids := uuids w;
        calls := calls w ++ [GetItem TaskService.STORAGE_KEY] |}).
Proof.
  intros [[Hts Hitem]|Hitem] Hv;
    unfold TaskService.constructor, mbind, M_bind; cbn [modify].
  - rewrite loadTasks_unfold. cbn [localStorage]. rewrite Hitem, Hts.
    reflexivity.
  - rewrite (loadTasks_run (tasks (taskSubject w))).
    + cbn. by rewrite app_nil_r, map_reloaded_valid.
    + eapply Forall_impl; [exact Hv|]. intros t [Hc Hu]. split; by right.
    + done.
Qed.

(** X11.  When the clock gives dates a Date can hold and the tasks handed
    to updateTask and changeTaskState carry a valid createdAt, a restart
    loses nothing: after any sequence of requests, a newly constructed
    service reads from the storage exactly the collection the old one
    held (same tasks, same order, same fields), returns normally, has no
    listeners and leaves the storage as it is. *)
Theorem restart_restores_the_collection (rs : list Request) (w : World) :
  clocked →
  Forall wellDated rs →
  Forall validTimestamps (tasks (taskSubject w)) →
  stored w →
  let w' := run rs w in
  eval TaskService.constructor w' = Normal tt
  ∧ tasks (taskSubject (exec TaskService.constructor w'))
    = tasks (taskSubject w')
  ∧ observers (taskSubject (exec TaskService.constructor w')) = []
  ∧ localStorage (exec TaskService.constructor w') = localStorage w'.
Proof.
  intros Hc Hrs Hv Hs. cbn zeta.
  assert (stored (run rs w)
          ∧ Forall validTimestamps (tasks (taskSubject (run rs w))))
    as [Hs' Hv'].
  { apply (run_invariant
             (λ w0, stored w0 ∧ Forall validTimestamps (tasks (taskSubject w0)))
             wellDated); [|done|done].
    intros r w0 Hr [? ?].
    split; [by apply serve_keeps_stored|by apply serve_keeps_valid]. }
  unfold eval, exec. by rewrite constructor_restores.
Qed.

End Restart.

Section RestartExamples.
Local Existing Instance cappedEnvironment.

Lemma cappedEnvironment_clocked : clocked.
Proof.
  intros i. unfold Date.inRange, now, cappedEnvironment, Date.maxTime. lia.
Qed.

Lemma restart_restores_the_collection_witness :
  let rs := [Mutate (CreateTask "Buy milk" EmptyString TaskPriority.LOW);
             Attach 1%nat;
             Mutate (CreateTask "Call mum" EmptyString TaskPriority.HIGH);
             Mutate (ChangeTaskState milk TaskState.COMPLETED);
             Mutate (UpdateTask oatMilk);
             Mutate (DeleteTask "task-i")] in
  clocked
  ∧ Forall wellDated rs
  ∧ Forall validTimestamps (tasks (taskSubject (worldWith [])))
  ∧ stored (worldWith [])
  ∧ tasks (taskSubject (exec TaskService.constructor (run rs (worldWith []))))
    = tasks (taskSubject (run rs (worldWith []))).
Proof.
  cbn zeta.
  assert (Forall wellDated
            [Mutate (CreateTask "Buy milk" EmptyString TaskPriority.LOW);
             Attach 1%nat;
             Mutate (CreateTask "Call mum" EmptyString TaskPriority.HIGH);
             Mutate (ChangeTaskState milk TaskState.COMPLETED);
             Mutate (UpdateTask oatMilk);
             Mutate (DeleteTask "task-i")]) as Hrs
    by (repeat constructor; vm_compute; intuition discriminate).
  split; [exact cappedEnvironment_clocked|].
  split; [exact Hrs|].
  split; [constructor|].
  split; [by left|].
  apply (restart_restores_the_collection _ (worldWith []));
    [exact cappedEnvironment_clocked|exact Hrs|constructor|by left].
Defined.

End RestartExamples.

(* ===================================================================== *)
(** * Listeners and the list component *)
(* ===================================================================== *)

Section Registrations.
Context `{Environment}.

Lemma indexOf_first (o : TaskObserver) (l1 l2 : list TaskObserver) :
  o ∉ l1 → indexOf o (l1 ++ o :: l2) = Z.of_nat (length l1).
Proof.
  induction l1 as [|y l1 IH]; intros Hn; cbn [indexOf app length].
  - by rewrite decide_True.
  - apply not_elem_of_cons in Hn as [Hy Hn].
    rewrite decide_False by done. rewrite IH by done.
    destruct (Z.eqb_spec (Z.of_nat (length l1)) (-1)); lia.
Qed.

Lemma detach_run (o : TaskObserver) (l1 l2 : list TaskObserver) (w : World) :
  observers (taskSubject w) = l1 ++ o :: l2 → o ∉ l1 →
  TaskSubject.detach o w
  = (tt, {| taskSubject := {| observers := l1 ++ l2;
                              tasks := tasks (taskSubject w) |};
            localStorage := localStorage w;
            dates := dates w; uuids := uuids w; calls := calls w |}).
Proof.
  intros Hos Hn. unfold TaskSubject.detach. cbn. unfold mbind, M_bind. cbn.
  rewrite Hos, indexOf_first by done.
  destruct (Z.eqb_spec (Z.of_nat (length l1)) (-1)) as [E|_]; [lia|]. cbn.
  unfold splice1. rewrite Nat2Z.id.
  rewrite take_app_length.
  change (l1 ++ o :: l2) with (l1 ++ [o] ++ l2).
  rewrite app_assoc.
  replace (S (length l1)) with (length (l1 ++ [o]))
    by (rewrite length_app; cbn; lia).
  by rewrite drop_app_length.
Qed.

(** X12.  detach takes away the first registration of the listener and
    no other: when the listener is registered, with the registrations l1
    before its first one and l2 after it, the registrations after
    detachObserver are l1 followed by l2, in their order; the collection,
    the storage and the call log are as before (nobody is notified). *)
Theorem detach_removes_the_first_registration
    (o : TaskObserver) (l1 l2 : list TaskObserver) (w : World) :
  observers (taskSubject w) = l1 ++ o :: l2 →
  o ∉ l1 →
  let w' := exec (TaskService.detachObserver o) w in
  observers (taskSubject w') = l1 ++ l2
  ∧ tasks (taskSubject w') = tasks (taskSubject w)
  ∧ localStorage w' = localStorage w
  ∧ calls w' = calls w.
Proof.
  intros Hos Hn. cbn zeta. unfold exec, TaskService.detachObserver.
  by rewrite (detach_run o l1 l2).
Qed.

Lemma perform_observers (op : Mutation) (w : World) :
  observers (taskSubject (exec (perform op) w)) = observers (taskSubject w).
Proof.
  destruct op as [t d p|task|i|task s]; unfold exec, perform.
  - unfold mbind, M_bind. by rewrite createTask_run.
  - by rewrite updateTask_run.
  - by rewrite deleteTask_run.
  - unfold mbind, M_bind.
    destruct (decide (s ∈ TaskState.members)) as [Hs|Hs].
    + rewrite changeTaskState_run by done. cbn. unfold exec.
      by rewrite updateTask_run.
    + by rewrite changeTaskState_no_handler.
Qed.

Lemma run_mutations_observers (ops : list Mutation) (w : World) :
  observers (taskSubject (run (map Mutate ops) w)) = observers (taskSubject w).
Proof.
  revert w. induction ops as [|op ops IH]; intros w; [done|].
  cbn [map run]. rewrite IH. apply perform_observers.
Qed.

(** X13.  The effect of the list component and its cleanup leave the
    registrations as they found them: when the listener is not registered
    beforehand, then after the effect, any mutations of the collection,
    and the cleanup, the listeners registered are the same, in the same
    order, as before the effect; the effect itself returns the collection
    of the store and notifies nobody. *)
Theorem effect_and_cleanup_restore_the_registrations
    (o : TaskObserver) (ops : list Mutation) (w : World) :
  o ∉ observers (taskSubject w) →
  let w1 := exec (TaskList.effect o) w in
  eval (TaskList.effect o) w = tasks (taskSubject w)
  ∧ calls w1 = calls w
  ∧ observers (taskSubject w1) = observers (taskSubject w) ++ [o]
  ∧ observers (taskSubject (exec (TaskList.cleanup o)
                              (run (map Mutate ops) w1)))
    = observers (taskSubject w).
Proof.
  intros Hn. cbn zeta. split; [done|]. split; [done|]. split; [done|].
  unfold exec at 1, TaskList.cleanup, TaskService.detachObserver.
  rewrite (detach_run o (observers (taskSubject w)) []).
  - cbn. by rewrite app_nil_r.
  - by rewrite run_mutations_observers.
  - done.
Qed.

Lemma serve_keeps_registered (o : TaskObserver) (r : Request) (w : World) :
  r ≠ Detach o →
  o ∈ observers (taskSubject w) →
  o ∈ observers (taskSubject (exec (serve r) w)).
Proof.
  intros Hr Ho. destruct r as [op|o'|o'].
  - unfold serve. by rewrite perform_observers.
  - cbn. apply elem_of_app. by left.
  - assert (o' ≠ o) as Hne by congruence.
    unfold exec, serve, TaskService.detachObserver, TaskSubject.detach.
    cbn. unfold mbind, M_bind. cbn.
    destruct (Z.eqb_spec (indexOf o' (observers (taskSubject w))) (-1))
      as [E|N]; cbn; [done|].
    apply count_present in Ho.
    pose proof (count_splice_indexOf o' o (observers (taskSubject w)) N) as Hc.
    rewrite decide_False in Hc by done.
    destruct (decide (o ∈ splice1 (indexOf o' (observers (taskSubject w)))
                           (observers (taskSubject w)))) as [|Hout]; [done|].
    apply count_absent in Hout. lia.
Qed.

Lemma shown_step (o : TaskObserver) (r : Request) (w : World) :
  o ∈ observers (taskSubject w) →
  ∃ cs, calls (exec (serve r) w) = calls w ++ cs
        ∧ shown o (tasks (taskSubject w)) cs
          = tasks (taskSubject (exec (serve r) w)).
Proof.
  intros Ho.
  destruct (serve_cases r w) as [(ts & w0 & -> & Hos & _ & Hc)|(Ht & _ & Hc)].
  - eexists. cbn. rewrite Hc. split; [reflexivity|].
    unfold shown. rewrite updatesTo_app, updatesTo_notifications. cbn.
    rewrite app_nil_r, Hos. apply count_present in Ho.
    unfold registrations.
    destruct (count o (observers (taskSubject w))) as [|n]; [lia|].
    by rewrite replicate_S_end, last_snoc.
  - exists []. rewrite app_nil_r. split; [done|]. by rewrite <- Ht.
Qed.

Lemma shown_app (o : TaskObserver) (loaded : list Task) (cs1 cs2 : list Call) :
  shown o loaded (cs1 ++ cs2) = shown o (shown o loaded cs1) cs2.
Proof.
  unfold shown. rewrite updatesTo_app.
  destruct (updatesTo o cs2) as [|u us] using rev_ind.
  - by rewrite app_nil_r.
  - by rewrite app_assoc, !last_snoc.
Qed.

Lemma run_shown (o : TaskObserver) (rs : list Request) (w : World) :
  Forall (λ r, r ≠ Detach o) rs →
  o ∈ observers (taskSubject w) →
  ∃ cs, calls (run rs w) = calls w ++ cs
        ∧ shown o (tasks (taskSubject w)) cs = tasks (taskSubject (run rs w)).
Proof.
  intros Hrs. revert w. induction Hrs as [|r rs Hr _ IH]; intros w Ho.
  - exists []. by rewrite app_nil_r.
  - cbn [run]. destruct (shown_step o r w Ho) as (cs1 & E1 & S1).
    destruct (IH (exec (serve r) w)) as (cs2 & E2 & S2);
      [by apply serve_keeps_registered|].
    exists (cs1 ++ cs2). rewrite E2, E1, app_assoc. split; [done|].
    by rewrite shown_app, S1.
Qed.

(** X14.  The list component always holds the collection of the store:
    from its effect on, and as long as its listener is not detached,
    after any sequence of requests the collection last handed to the
    component (by its effect or by a call of its listener) is the
    collection the store holds. *)
Theorem component_holds_the_collection_of_the_store
    (o : TaskObserver) (rs : list Request) (w : World) :
  Forall (λ r, r ≠ Detach o) rs →
  let loaded := eval (TaskList.effect o) w in
  let w1 := exec (TaskList.effect o) w in
  let w2 := run rs w1 in
  shown o loaded (drop (length (calls w1)) (calls w2))
  = tasks (taskSubject w2).
Proof.
  intros Hrs. cbn zeta.
  destruct (run_shown o rs (exec (TaskList.effect o) w) Hrs)
    as (cs & E & Hs).
  - cbn. apply elem_of_app. right. apply elem_of_cons. by left.
  - rewrite E, drop_app_length. exact Hs.
Qed.

End Registrations.

(* ===================================================================== *)
(** * The form and the sorted list *)
(* ===================================================================== *)

Section Form.
Context `{Environment}.

Lemma trimStart_blank (s : string) :
  TaskForm.trimStart s = EmptyString ↔ blank s.
Proof.
  induction s as [|c s IH]; [done|]. cbn.
  destruct (TaskForm.isWhiteSpace c); [|split; [done|by intros [? _]]].
  rewrite IH. tauto.
Qed.

Lemma trimStart_head (s : string) :
  TaskForm.trimStart s = EmptyString
  ∨ ∃ c s', TaskForm.trimStart s = String c s' ∧ TaskForm.isWhiteSpace c = false.
Proof.
  induction s as [|c s IH]; [by left|]. cbn.
  destruct (TaskForm.isWhiteSpace c) eqn:E; [done|]. right. eauto.
Qed.

Lemma trim_blank (s : string) : TaskForm.trim s = EmptyString ↔ blank s.
Proof.
  rewrite <- trimStart_blank. unfold TaskForm.trim.
  destruct (trimStart_head s) as [->|(c & s' & -> & Hc)]; [done|].
  cbn. rewrite Hc. by destruct (TaskForm.trimEnd s').
Qed.

(** X15.  Submitting the form with a title that is empty or consists of
    white space only does nothing at all: no task is created, nobody is
    notified, nothing is stored, and the fields of the form stay as they
    are (the white space typed is not cleared). *)
Theorem handleSubmit_ignores_a_blank_title (form : TaskForm.State) (w : World) :
  blank (TaskForm.title form) →
  TaskForm.handleSubmit form w = (form, w).
Proof.
  intros Hb%trim_blank. unfold TaskForm.handleSubmit. by rewrite Hb.
Qed.

(** X16.  Submitting the form with a title that holds a character other
    than white space creates exactly one task, with the title as typed
    (not trimmed), the description and the priority of the form, appended
    to the collection, and puts the form back to an empty title, an empty
    description and the priority MEDIUM. *)
Theorem handleSubmit_creates_the_task_and_resets_the_form
    (form : TaskForm.State) (w : World) :
  ¬ blank (TaskForm.title form) →
  let w' := exec (TaskForm.handleSubmit form) w in
  eval (TaskForm.handleSubmit form) w
  = {| TaskForm.title := EmptyString; TaskForm.description := EmptyString;
       TaskForm.priority := TaskPriority.MEDIUM |}
  ∧ w' = exec (TaskService.createTask (TaskForm.title form)
                 (TaskForm.description form) (TaskForm.priority form)) w
  ∧ ∃ task, tasks (taskSubject w') = tasks (taskSubject w) ++ [task]
            ∧ title task = TaskForm.title form
            ∧ description task = TaskForm.description form
            ∧ priority task = TaskForm.priority form
            ∧ state task = TaskState.NEW.
Proof.
  intros Hb. cbn zeta. unfold eval, exec, TaskForm.handleSubmit.
  destruct (TaskForm.trim (TaskForm.title form)) as [|c s] eqn:E;
    [by apply trim_blank in E|].
  unfold mbind, M_bind. rewrite createTask_run. cbn.
  split; [done|]. split; [done|]. eexists. split; [reflexivity|]. done.
Qed.

End Form.

Section FormExamples.
Local Existing Instance steadyEnvironment.

Lemma handleSubmit_ignores_a_blank_title_witness :
  let form := {| TaskForm.title := "   "; TaskForm.description := "soon";
                 TaskForm.priority := TaskPriority.HIGH |} in
  blank (TaskForm.title form)
  ∧ TaskForm.handleSubmit form worldWithMilk = (form, worldWithMilk).
Proof.
  cbn zeta. split; [by cbn|].
  apply (handleSubmit_ignores_a_blank_title
           {| TaskForm.title := "   "; TaskForm.description := "soon";
              TaskForm.priority := TaskPriority.HIGH |} worldWithMilk).
  by cbn.
Defined.

Lemma handleSubmit_creates_the_task_and_resets_the_form_witness :
  let form := {| TaskForm.title := " Call mum "; TaskForm.description := "soon";
                 TaskForm.priority := TaskPriority.HIGH |} in
  ¬ blank (TaskForm.title form)
  ∧ eval (TaskForm.handleSubmit form) worldWithMilk
    = {| TaskForm.title := EmptyString; TaskForm.description := EmptyString;
         TaskForm.priority := TaskPriority.MEDIUM |}.
Proof.
  cbn zeta.
  assert (¬ blank " Call mum ") as Hb by (cbn; intros (_ & [=] & _)).
  split; [exact Hb|].
  apply (handleSubmit_creates_the_task_and_resets_the_form
           {| TaskForm.title := " Call mum "; TaskForm.description := "soon";
              TaskForm.priority := TaskPriority.HIGH |} worldWithMilk).
  exact Hb.
Defined.

End FormExamples.

Section Sorting.

Variable key : Task → Z.
Variable cmp : Task → Task → option Z.

Lemma sortInsert_perm (x : Task) (l : list Task) :
  sortInsert cmp x l ≡ₚ x :: l.
Proof.
  induction l as [|y l IH]; [done|]. cbn.
  destruct (0 <? SortCompare cmp x y); [|done].
  rewrite IH. apply Permutation_swap.
Qed.

Lemma sort_perm (l : list Task) : sort cmp l ≡ₚ l.
Proof.
  induction l as [|x l IH]; [done|]. cbn.
  rewrite sortInsert_perm. by rewrite IH.
Qed.


Lemma sortInsert_sorted (x : Task) (l : list Task) :
  Forall (λ y, SortCompare cmp x y = key y - key x) l →
  StronglySorted (descending key) l →
  StronglySorted (descending key) (sortInsert cmp x l).
Proof.
  intros Hc Hl. induction Hl as [|y l Hl IH Hy]; cbn.
  - repeat constructor.
  - apply Forall_cons in Hc as [Hxy Hc].
    destruct (Z.ltb_spec 0 (SortCompare cmp x y)) as [Hlt|Hge].
    + constructor; [by apply IH|].
      rewrite sortInsert_perm. constructor; [|done].
      unfold descending. lia.
    + constructor; [by constructor|].
      constructor; [unfold descending; lia|].
      eapply Forall_impl; [exact Hy|]. unfold descending. intros z. lia.
Qed.

Lemma sortInsert_stable (n : Z) (x : Task) (l : list Task) :
  Forall (λ y, SortCompare cmp x y = key y - key x) l →
  filter (λ t, key t = n) (sortInsert cmp x l)
  = filter (λ t, key t = n) (x :: l).
Proof.
  induction 1 as [|y l Hxy _ IH]; [done|]. cbn [sortInsert].
  destruct (Z.ltb_spec 0 (SortCompare cmp x y)) as [Hlt|Hge]; [|done].
  rewrite filter_cons, IH, !filter_cons.
  repeat case_decide; try done. lia.
Qed.

Lemma sort_sorted_stable (l : list Task) :
  (∀ a b, a ∈ l → b ∈ l → SortCompare cmp a b = key b - key a) →
  StronglySorted (descending key) (sort cmp l)
  ∧ ∀ n, filter (λ t, key t = n) (sort cmp l) = filter (λ t, key t = n) l.
Proof.
  induction l as [|x l IH]; intros Hc; [split; [constructor|done]|].
  destruct IH as [Hs Hst].
  { intros a b Ha Hb. apply Hc; by apply elem_of_cons; right. }
  assert (Forall (λ y, SortCompare cmp x y = key y - key x) (sort cmp l)) as Hx.
  { apply Forall_forall. intros y Hy. rewrite sort_perm in Hy.
    apply Hc; [by apply elem_of_cons; left|by apply elem_of_cons; right]. }
  cbn [sort]. split; [by apply sortInsert_sorted|].
  intros n. rewrite sortInsert_stable by done.
  by rewrite !filter_cons, Hst.
Qed.

End Sorting.

Section Listing.

Lemma SortCompare_priority (a b : Task) :
  SortCompare (TaskList.comparator "priority") a b = level b - level a.
Proof. reflexivity. Qed.

Lemma SortCompare_date (sortBy : string) (a b : Task) :
  sortBy ≠ "priority"%string →
  Date.valid (createdAt a) → Date.valid (createdAt b) →
  SortCompare (TaskList.comparator sortBy) a b = creation b - creation a.
Proof.
  intros Hs Ha Hb. unfold SortCompare, TaskList.comparator, creation.
  rewrite decide_False by done.
  by destruct (createdAt a), (createdAt b).
Qed.

Lemma elem_of_wanted (filter_ : string) (tasks : list Task) (t : Task) :
  t ∈ wanted filter_ tasks
  ↔ t ∈ tasks ∧ (filter_ = "ALL"%string ∨ state t = filter_).
Proof. unfold wanted. rewrite list_elem_of_filter. tauto. Qed.

(** X17.  Sorted by priority, the list shows exactly the tasks of the
    collection that pass the filter (all of them for "ALL", else those in
    the chosen state), each as often as it is in the collection, with
    the higher priority first (HIGH, then MEDIUM and every unknown
    priority, then LOW), and tasks of the same rank in the order they
    have in the collection. *)
Theorem list_by_priority_is_a_stable_descending_sort
    (tasks : list Task) (filter_ : string) :
  let l := TaskList.filteredAndSortedTasks tasks filter_ "priority" in
  (∀ t, t ∈ l ↔ t ∈ tasks ∧ (filter_ = "ALL"%string ∨ state t = filter_))
  ∧ l ≡ₚ wanted filter_ tasks
  ∧ StronglySorted (descending level) l
  ∧ ∀ n, filter (λ t, level t = n) l
         = filter (λ t, level t = n) (wanted filter_ tasks).
Proof.
  cbn zeta. unfold TaskList.filteredAndSortedTasks. fold (wanted filter_ tasks).
  pose proof (sort_perm (TaskList.comparator "priority") (wanted filter_ tasks))
    as Hp.
  split; [intros t; by rewrite Hp, elem_of_wanted|]. split; [done|].
  apply sort_sorted_stable. intros a b _ _. apply SortCompare_priority.
Qed.

(** X18.  Sorted by date (any choice other than "priority"), when the
    tasks of the collection carry valid creation dates, the list shows
    exactly the tasks that pass the filter, each as often as it is in
    the collection, the newest first, and tasks created at the same
    instant in the order they have in the collection. *)
Theorem list_by_date_is_a_stable_descending_sort
    (tasks : list Task) (filter_ sortBy : string) :
  sortBy ≠ "priority"%string →
  Forall (λ t, Date.valid (createdAt t)) tasks →
  let l := TaskList.filteredAndSortedTasks tasks filter_ sortBy in
  (∀ t, t ∈ l ↔ t ∈ tasks ∧ (filter_ = "ALL"%string ∨ state t = filter_))
  ∧ l ≡ₚ wanted filter_ tasks
  ∧ StronglySorted (descending creation) l
  ∧ ∀ n, filter (λ t, creation t = n) l
         = filter (λ t, creation t = n) (wanted filter_ tasks).
Proof.
  intros Hs Hv. cbn zeta. unfold TaskList.filteredAndSortedTasks.
  fold (wanted filter_ tasks).
  pose proof (sort_perm (TaskList.comparator sortBy) (wanted filter_ tasks))
    as Hp.
  split; [intros t; by rewrite Hp, elem_of_wanted|]. split; [done|].
  apply sort_sorted_stable. intros a b Ha Hb.
  rewrite Forall_forall in Hv.
  apply SortCompare_date; [done| |]; apply Hv; eapply elem_of_wanted; eauto.
Qed.

End Listing.

Lemma list_by_date_is_a_stable_descending_sort_witness :
  ("date"%string ≠ "priority"%string)
  ∧ Forall (λ t, Date.valid (createdAt t)) [milk; callMum; oatMilk]
  ∧ TaskList.filteredAndSortedTasks [milk; callMum; oatMilk] "ALL" "date"
    ≡ₚ wanted "ALL" [milk; callMum; oatMilk].
Proof.
  assert (Forall (λ t, Date.valid (createdAt t)) [milk; callMum; oatMilk])
    as Hv by (repeat constructor; vm_compute; intuition discriminate).
  split; [discriminate|]. split; [exact Hv|].
  apply (list_by_date_is_a_stable_descending_sort
           [milk; callMum; oatMilk] "ALL" "date"); [discriminate|exact Hv].
Defined.

Example list_of_three :
  TaskList.filteredAndSortedTasks [milk; callMum; oatMilk] "ALL" "priority"
  = [callMum; milk; oatMilk]
  ∧ TaskList.filteredAndSortedTasks [milk; callMum; oatMilk] "ALL" "date"
    = [callMum; milk; oatMilk]
  ∧ TaskList.filteredAndSortedTasks [milk; callMum; oatMilk] "NEW" "date"
    = [milk; oatMilk]
  ∧ TaskList.filteredAndSortedTasks [milk; callMum; oatMilk] "DONE" "date"
    = [].
Proof. vm_compute. repeat split. Qed.

(* ===================================================================== *)
(** * Readings of the clock, suggested states, and the adapter *)
(* ===================================================================== *)

Section Readings.
Context `{Environment}.

(** X19.  createTask reads the clock once and the identifier generator
    once; updateTask reads the clock once for every stored task that
    carries the identifier of its argument (not at all when there is
    none) and never the generator; deleteTask reads neither; and
    changeTaskState to a state of the enumeration reads the clock once
    for the task it is given and then as updateTask does. *)
Theorem clock_and_generator_readings (w : World) :
  (∀ t d p,
     let w' := exec (TaskService.createTask t d p) w in
     dates w' = S (dates w) ∧ uuids w' = S (uuids w))
  ∧ (∀ task,
       let w' := exec (TaskService.updateTask task) w in
       dates w'
       = (length (matching (id task) (tasks (taskSubject w))) + dates w)%nat
       ∧ uuids w' = uuids w)
  ∧ (∀ i,
       let w' := exec (TaskService.deleteTask i) w in
       dates w' = dates w ∧ uuids w' = uuids w)
  ∧ (∀ task s, s ∈ TaskState.members →
       let w' := exec (TaskService.changeTaskState task s) w in
       dates w'
       = (length (matching (id task) (tasks (taskSubject w))) + S (dates w))%nat
       ∧ uuids w' = uuids w).
Proof.
  split; [|split; [|split]]; cbn zeta.
  - intros t d p. unfold exec. by rewrite createTask_run.
  - intros task. unfold exec. by rewrite updateTask_run.
  - intros i. unfold exec. by rewrite deleteTask_run.
  - intros task s Hs. unfold exec. rewrite changeTaskState_run by done.
    cbn zeta. cbn [snd]. unfold exec. by rewrite updateTask_run.
Qed.

(** X20.  After changeTaskState(t, S), for S of the enumeration, the
    task object handed in carries the reading of the clock taken by the
    handler, while every stored task with its identifier is a copy of it
    stamped with a later reading of the clock: the copy has the fields
    of t, the state S, and an updatedAt that, with a clock that does not
    run backwards, is not before the one left on the object handed
    in. *)
Theorem changeTaskState_stamps_the_stored_copies_again
    (task : Task) (newState : TaskState) (w : World) :
  newState ∈ TaskState.members →
  let task' := eval (TaskService.changeTaskState task newState) w in
  let w' := exec (TaskService.changeTaskState task newState) w in
  updatedAt task' = DateAt (now (dates w))
  ∧ ∀ (i : nat) s,
      tasks (taskSubject w) !! i = Some s → id s = id task →
      ∃ k : nat, (dates w < k < dates w')%nat
        ∧ tasks (taskSubject w') !! i
          = Some (assigned task newState (DateAt (now k)))
        ∧ (monotone → Date.le (updatedAt task') (DateAt (now k))).
Proof.
  intros Hs. cbn zeta. unfold eval, exec.
  rewrite changeTaskState_run by done. cbn zeta. cbn [fst snd].
  split; [done|]. intros i s Hi Hid. unfold exec. rewrite updateTask_run.
  cbn [snd published taskSubject tasks dates later assigned id].
  exists (S (dates w) + length (matching (id task)
                                 (take i (tasks (taskSubject w)))))%nat.
  pose proof (matching_take_lt _ _ _ _ Hi Hid) as Hlt.
  split; [lia|]. split.
  - rewrite (restamp_lookup _ _ _ _ _ Hi). cbn [id assigned later dates].
    rewrite decide_True by done. reflexivity.
  - intros Hm. cbn. apply Hm. lia.
Qed.

Lemma restamp_state (task : Task) (k : nat) (l : list Task) :
  Forall (λ t, id t = id task → state t = state task) (restamp task k l).
Proof.
  revert k. induction l as [|t l IH]; intros k; cbn; [constructor|].
  case_decide; constructor; done.
Qed.

(** X21.  What getPossibleNextState or getPossiblePreviousState
    suggests for a task is always a state of the enumeration other than
    the one the task is in, and never POSTPONED; and changeTaskState
    accepts it: afterwards the task, and every stored task with its
    identifier, is in the suggested state. *)
Theorem suggested_states_are_accepted
    (task : Task) (s : TaskState) (w : World) :
  eval (TaskService.getPossibleNextState task) w = Some s
  ∨ eval (TaskService.getPossiblePreviousState task) w = Some s →
  s ∈ TaskState.members
  ∧ s ≠ state task
  ∧ s ≠ TaskState.POSTPONED
  ∧ state (eval (TaskService.changeTaskState task s) w) = s
  ∧ Forall (λ t, id t = id task → state t = s)
      (tasks (taskSubject (exec (TaskService.changeTaskState task s) w))).
Proof.
  intros Hadv.
  assert (s ∈ TaskState.members ∧ s ≠ state task ∧ s ≠ TaskState.POSTPONED)
    as (Hs & Hne & Hnp).
  { revert Hadv. unfold eval, TaskService.getPossibleNextState,
      TaskService.getPossiblePreviousState, TaskService._getHandlerForState.
    cbn. repeat case_decide; cbn;
      intros [[= <-]|[= <-]];
      (split; [unfold TaskState.members; set_solver|]);
      (split; [|discriminate]);
      match goal with Hx : state task = _ |- _ => rewrite Hx end;
      discriminate. }
  split; [done|]. split; [done|]. split; [done|].
  unfold eval, exec. rewrite changeTaskState_run by done. cbn zeta.
  cbn [fst snd]. split; [done|]. unfold exec. rewrite updateTask_run. cbn.
  apply (restamp_state (assigned task s (DateAt (now (dates w))))).
Qed.

End Readings.

Section Adapter.

(** X22.  The adapter reads back what it wrote: getItem after setItem of
    the same key answers the value set (the empty string too), getItem
    after removeItem answers none, items under other keys are answered
    as before, each method makes exactly one call of the storage, with
    the arguments it was given, and none touches the collection or the
    listeners. *)
Theorem adapter_reads_back_what_it_wrote
    (key key' value : string) (w : World) :
  let A := LocalStorageAdapter in
  eval (setItem A key value;; getItem A key) w = Some value
  ∧ eval (removeItem A key;; getItem A key) w = None
  ∧ (key' ≠ key →
     eval (setItem A key value;; getItem A key') w = eval (getItem A key') w
     ∧ eval (removeItem A key;; getItem A key') w = eval (getItem A key') w)
  ∧ callsOf (setItem A key value;; getItem A key;; removeItem A key) w
    = [SetItem key value; GetItem key; RemoveItem key]
  ∧ taskSubject (exec (setItem A key value;; getItem A key;; removeItem A key) w)
    = taskSubject w.
Proof.
  cbn zeta. unfold eval, exec, callsOf, exec. cbn.
  unfold mbind, M_bind. cbn.
  split; [apply lookup_insert_eq|]. split; [apply lookup_delete_eq|].
  split; [intros Hk; split;
          [by apply lookup_insert_ne|by apply lookup_delete_ne]|].
  split; [|done].
  rewrite <- !app_assoc. by rewrite drop_app_length.
Qed.

End Adapter.

Section ReadingsExamples.
Local Existing Instance steadyEnvironment.

Lemma changeTaskState_stamps_the_stored_copies_again_witness :
  TaskState.COMPLETED ∈ TaskState.members
  ∧ updatedAt (eval (TaskService.changeTaskState milk TaskState.COMPLETED)
                 worldWithMilk)
    = DateAt 1000
  ∧ tasks (taskSubject (exec (TaskService.changeTaskState milk
                                TaskState.COMPLETED) worldWithMilk))
    = [assigned milk TaskState.COMPLETED (DateAt 2000)].
Proof.
  assert (TaskState.COMPLETED ∈ TaskState.members) as Hs
    by (unfold TaskState.members; set_solver).
  split; [exact Hs|]. split; [|reflexivity].
  exact (proj1 (changeTaskState_stamps_the_stored_copies_again
                  milk TaskState.COMPLETED worldWithMilk Hs)).
Defined.

Lemma suggested_states_are_accepted_witness :
  (eval (TaskService.getPossibleNextState milk) worldWithMilk
   = Some TaskState.IN_PROGRESS
   ∨ eval (TaskService.getPossiblePreviousState milk) worldWithMilk
     = Some TaskState.IN_PROGRESS)
  ∧ state (eval (TaskService.changeTaskState milk TaskState.IN_PROGRESS)
             worldWithMilk)
    = TaskState.IN_PROGRESS.
Proof.
  split; [left; reflexivity|].
  apply (suggested_states_are_accepted milk TaskState.IN_PROGRESS worldWithMilk).
  left. reflexivity.
Defined.

End ReadingsExamples.

(* ===================================================================== *)
(** * The storage, the listeners and the list component at work *)
(* ===================================================================== *)

Section RequestExamples.
Local Existing Instance steadyEnvironment.

Lemma storage_mirrors_the_collection_witness :
  let rs := [Mutate (CreateTask "Buy milk" EmptyString TaskPriority.LOW);
             Mutate (UpdateTask oatMilk);
             Mutate (ChangeTaskState oatMilk "ARCHIVED");
             Mutate (DeleteTask "task-")] in
  stored (worldWith [1%nat])
  ∧ stored (run rs (worldWith [1%nat])).
Proof.
  cbn zeta. split; [by left|].
  apply (storage_mirrors_the_collection _ (worldWith [1%nat])). by left.
Defined.

Lemma detach_removes_the_first_registration_witness :
  observers (taskSubject (worldWith [9; 5; 7; 5]%nat))
  = [9%nat] ++ 5%nat :: [7; 5]%nat
  ∧ (5%nat ∉ [9%nat])
  ∧ observers (taskSubject (exec (TaskService.detachObserver 5%nat)
                              (worldWith [9; 5; 7; 5]%nat)))
    = [9; 7; 5]%nat.
Proof.
  assert (5%nat ∉ [9%nat]) as Hn
    by (intros [[=]|[]%elem_of_nil]%elem_of_cons).
  split; [reflexivity|]. split; [exact Hn|].
  apply (detach_removes_the_first_registration
           5%nat [9%nat] [7; 5]%nat (worldWith [9; 5; 7; 5]%nat));
    [reflexivity|exact Hn].
Defined.

Lemma effect_and_cleanup_restore_the_registrations_witness :
  (2%nat ∉ observers (taskSubject worldWithMilk))
  ∧ observers (taskSubject
                 (exec (TaskList.cleanup 2%nat)
                    (run (map Mutate [UpdateTask oatMilk; DeleteTask "task-"])
                       (exec (TaskList.effect 2%nat) worldWithMilk))))
    = observers (taskSubject worldWithMilk).
Proof.
  assert (2%nat ∉ observers (taskSubject worldWithMilk)) as Hn
    by (intros [[=]|[]%elem_of_nil]%elem_of_cons).
  split; [exact Hn|].
  apply (effect_and_cleanup_restore_the_registrations
           2%nat [UpdateTask oatMilk; DeleteTask "task-"] worldWithMilk Hn).
Defined.

Lemma component_holds_the_collection_of_the_store_witness :
  let rs := [Mutate (CreateTask "Call mum" EmptyString TaskPriority.HIGH);
             Attach 3%nat;
             Mutate (UpdateTask oatMilk);
             Detach 1%nat;
             Mutate (DeleteTask "task-")] in
  let w1 := exec (TaskList.effect 2%nat) worldWithMilk in
  Forall (λ r, r ≠ Detach 2%nat) rs
  ∧ shown 2%nat (eval (TaskList.effect 2%nat) worldWithMilk)
      (drop (length (calls w1)) (calls (run rs w1)))
    = tasks (taskSubject (run rs w1)).
Proof.
  cbn zeta.
  assert (Forall (λ r, r ≠ Detach 2%nat)
            [Mutate (CreateTask "Call mum" EmptyString TaskPriority.HIGH);
             Attach 3%nat;
             Mutate (UpdateTask oatMilk);
             Detach 1%nat;
             Mutate (DeleteTask "task-")]) as Hrs
    by (repeat constructor; discriminate).
  split; [exact Hrs|].
  apply (component_holds_the_collection_of_the_store 2%nat _ worldWithMilk Hrs).
Defined.

End RequestExamples.
